(** * UmbraCore migration tooling: tracker and dependency analyzer

    Shallow embedding of
      - [alpha_migration_tracker.py]  (class [MigrationTracker]) and
      - [bazel_dependency_analyzer.py] (class [DependencyAnalyzer]),
    followed by the properties of the Fact Store, the rule set, the
    validator and the migration orderer.

    Modelling conventions.
      - A Python [dict] whose iteration order is observed (the tracker's
        [self.modules], the analyzer's [package_deps], a parsed JSON object)
        is an association list in insertion order with pairwise distinct
        keys ([Dict.wf]).  Assigning to an existing key keeps its position,
        assigning to a new key appends it.
      - A [dict] that is only looked up ([valid_dependencies]) is a [gmap].
      - The [visited] set of the traversal is a [gset].
      - A raised exception is an [outcome]; [datetime.date.today()] is the
        parameter [today]; printing is left out.
      - The data file is taken at the level of the value [json.load]
        returns, or of the exception it raises; [json.dump] followed by
        [json.load] is the identity on the values [save_data] writes.
      - The interpreter's recursion limit is the parameter [depth] of the
        traversal: the number of nested calls of [dfs] that the interpreter
        still allows where [get_migration_order] is called.
      - What [date.fromisoformat] makes of a text that is not of the form
        [YYYY-MM-DD] depends on the version of Python; it is the parameter
        [other_formats]. *)

From Stdlib Require Import Ascii.
From stdpp Require Import base option list strings gmap sorting pretty.

#[local] Set Warnings "-clear-no-such-hyp".

Local Open Scope string_scope.
Local Open Scope nat_scope.
Local Open Scope list_scope.

(** ** Python dictionaries in insertion order *)

Module Dict.

Section Defs.
Context {V : Type}.

Fixpoint get (k : string) (d : list (string * V)) : option V :=
  match d with
  | [] => None
  | (k', v) :: d' => if decide (k = k') then Some v else get k d'
  end.

Definition mem (k : string) (d : list (string * V)) : bool :=
  match get k d with Some _ => true | None => false end.

(** [d[k] = v]: an existing key keeps its position. *)
Fixpoint set (k : string) (v : V) (d : list (string * V)) : list (string * V) :=
  match d with
  | [] => [(k, v)]
  | (k', v') :: d' =>
      if decide (k = k') then (k, v) :: d' else (k', v') :: set k v d'
  end.

Definition keys (d : list (string * V)) : list string := d.*1.

(** The keys of a dictionary are pairwise distinct. *)
Definition wf (d : list (string * V)) : Prop := NoDup (keys d).
End Defs.

End Dict.

(** ** Exceptions and outcomes *)

Inductive exn : Type :=
  | KeyError (key : string)
  | ValueError
  | JSONDecodeError
  | UnicodeDecodeError
  | RecursionError
  | AttributeError
  | TypeError.

Inductive outcome (A : Type) : Type :=
  | Ok (a : A)
  | Raise (e : exn).
Arguments Ok {A} a.
Arguments Raise {A} e.

Definition obind {A B} (m : outcome A) (f : A → outcome B) : outcome B :=
  match m with
  | Ok a => f a
  | Raise e => Raise e
  end.

Notation "x ←! m ; k" := (obind m (λ x, k))
  (at level 20, m at level 100, k at level 200, only parsing).

(** [for x in xs: st = body(x, st)], stopping at the first exception. *)
Fixpoint for_each {A St} (body : A → St → outcome St) (xs : list A) (st : St)
  : outcome St :=
  match xs with
  | [] => Ok st
  | x :: xs' => st' ←! body x st; for_each body xs' st'
  end.

(** ** Calendar dates ([datetime.date]) *)

Record date : Type := Date { year : N; month : N; day : N }.

Global Instance date_eq_dec : EqDecision date.
Proof. solve_decision. Defined.

Definition is_leap (y : N) : bool :=
  ((y mod 4 =? 0) && (negb (y mod 100 =? 0) || (y mod 400 =? 0)))%N.

Definition days_in_month (y m : N) : N :=
  (if m =? 2 then (if is_leap y then 29 else 28)
   else if (m =? 4) || (m =? 6) || (m =? 9) || (m =? 11) then 30
   else 31)%N.

(** The values a [datetime.date] object can hold. *)
Definition date_ok (d : date) : bool :=
  ((1 <=? year d) && (year d <=? 9999) &&
   (1 <=? month d) && (month d <=? 12) &&
   (1 <=? day d) && (day d <=? days_in_month (year d) (month d)))%N.

Definition digit_char (n : N) : ascii := ascii_of_N (48 + n mod 10).

Definition char_digit (c : ascii) : option N :=
  let n := N_of_ascii c in
  if ((48 <=? n) && (n <=? 57))%N then Some (n - 48)%N else None.

(** [date.isoformat()]: [%04d-%02d-%02d]. *)
Definition isoformat (d : date) : string :=
  String (digit_char (year d / 1000)) (String (digit_char (year d / 100))
  (String (digit_char (year d / 10)) (String (digit_char (year d))
  (String "-"%char (String (digit_char (month d / 10)) (String (digit_char (month d))
  (String "-"%char (String (digit_char (day d / 10)) (String (digit_char (day d))
   EmptyString))))))))).

(** The date that a text of the form [YYYY-MM-DD] spells (four digits, a
    dash, two digits, a dash, two digits), not yet checked against the
    calendar. *)
Definition parse_ymd (s : string) : option date :=
  match s with
  | String y3 (String y2 (String y1 (String y0 (String sep1
      (String m1 (String m0 (String sep2 (String d1 (String d0 EmptyString))))))))) =>
      if bool_decide (sep1 = "-"%char) && bool_decide (sep2 = "-"%char) then
        match char_digit y3, char_digit y2, char_digit y1, char_digit y0,
              char_digit m1, char_digit m0, char_digit d1, char_digit d0 with
        | Some a, Some b, Some c, Some e, Some f, Some g, Some h, Some i =>
            Some (Date (1000 * a + 100 * b + 10 * c + e) (10 * f + g) (10 * h + i))
        | _, _, _, _, _, _, _, _ => None
        end
      else None
  | _ => None
  end.

(** [date.fromisoformat(s)].  A text of the form [YYYY-MM-DD], the one
    [isoformat] writes, is read the same way by every version of Python: it
    gives its date, or [ValueError] when the day is not on the calendar.
    What becomes of any other text is the parameter [other_formats]:
    nothing before Python 3.11 (every such text raises [ValueError]), the
    basic and the week forms of ISO 8601 from 3.11 on.  A [date] object is
    always a calendar date. *)
Definition fromisoformat (other_formats : string → option date) (s : string)
  : outcome date :=
  match parse_ymd s with
  | Some d => if date_ok d then Ok d else Raise ValueError
  | None =>
      match other_formats s with
      | Some d => if date_ok d then Ok d else Raise ValueError
      | None => Raise ValueError
      end
  end.

(** ** The tracker's data model *)

Inductive MigrationStatus : Type :=
  | NOT_STARTED | IN_PROGRESS | COMPLETED | BLOCKED | SKIPPED.

Global Instance MigrationStatus_eq_dec : EqDecision MigrationStatus.
Proof. solve_decision. Defined.

(** [status.value] *)
Definition status_value (s : MigrationStatus) : string :=
  match s with
  | NOT_STARTED => "Not Started"
  | IN_PROGRESS => "In Progress"
  | COMPLETED => "Completed"
  | BLOCKED => "Blocked"
  | SKIPPED => "Skipped"
  end.

(** [MigrationStatus(value)]: lookup by value, [ValueError] otherwise. *)
Definition status_of_value (v : string) : outcome MigrationStatus :=
  if decide (v = "Not Started") then Ok NOT_STARTED
  else if decide (v = "In Progress") then Ok IN_PROGRESS
  else if decide (v = "Completed") then Ok COMPLETED
  else if decide (v = "Blocked") then Ok BLOCKED
  else if decide (v = "Skipped") then Ok SKIPPED
  else Raise ValueError.

Record ModuleInfo : Type := mkModuleInfo {
  name : string;
  status : MigrationStatus;
  dependencies : list string;
  dependents : list string;
  migration_date : option date;
  blocking_issues : list string;
  notes : string
}.

(** The dataclass constructor with [__post_init__]: a [blocking_issues] of
    [None] becomes the empty list. *)
Definition ModuleInfo_new (name : string) (status : MigrationStatus)
    (dependencies dependents : list string) (migration_date : option date)
    (blocking_issues : option (list string)) (notes : string) : ModuleInfo :=
  mkModuleInfo name status dependencies dependents migration_date
    (default [] blocking_issues) notes.

(** Attribute assignments [module.status = s], [module.migration_date = d]
    and [module.notes = n]. *)
Definition set_status (s : MigrationStatus) (m : ModuleInfo) : ModuleInfo :=
  mkModuleInfo (name m) s (dependencies m) (dependents m) (migration_date m)
    (blocking_issues m) (notes m).

Definition set_migration_date (d : option date) (m : ModuleInfo) : ModuleInfo :=
  mkModuleInfo (name m) (status m) (dependencies m) (dependents m) d
    (blocking_issues m) (notes m).

Definition set_notes (n : string) (m : ModuleInfo) : ModuleInfo :=
  mkModuleInfo (name m) (status m) (dependencies m) (dependents m)
    (migration_date m) (blocking_issues m) n.

(** The Fact Store: [MigrationTracker.modules]. *)
Abbreviation FactStore := (list (string * ModuleInfo)).

Module MigrationTracker.

(** [add_module]: [self.modules[name] = ModuleInfo(...)]. *)
Definition add_module (name : string) (status : MigrationStatus)
    (dependencies dependents : list string) (migration_date : option date)
    (blocking_issues : option (list string)) (notes : string)
    (modules : FactStore) : FactStore :=
  let blocking_issues :=
    match blocking_issues with None => Some [] | Some l => Some l end in
  Dict.set name
    (ModuleInfo_new name status dependencies dependents migration_date
       blocking_issues notes)
    modules.

(** [_initialize_default_modules] *)
Definition _initialize_default_modules (today : date) (modules : FactStore)
  : FactStore :=
  let modules :=
    add_module "UmbraErrors" COMPLETED
      [] ["CoreDTOs"; "UserDefaults"; "SecurityInterfaces"]
      (Some today) None
      "Successfully migrated to Alpha Dot Five architecture." modules in
  let modules :=
    add_module "CoreDTOs" IN_PROGRESS
      ["UmbraErrors"] ["UserDefaults"; "SecurityInterfaces"]
      None None
      "Dependencies updated to use migrated UmbraErrors module." modules in
  let modules :=
    add_module "UserDefaults" NOT_STARTED
      ["UmbraErrors"; "CoreDTOs"] ["SecurityInterfaces"]
      None None
      "Planned for migration after CoreDTOs is complete." modules in
  let modules :=
    add_module "SecurityInterfaces" NOT_STARTED
      ["UmbraErrors"; "CoreDTOs"; "UserDefaults"] []
      None None
      "Depends on UserDefaults migration." modules in
  let modules :=
    add_module "Notification" NOT_STARTED ["UmbraErrors"] [] None None "" modules in
  let modules :=
    add_module "Scheduling" NOT_STARTED ["UmbraErrors"] [] None None "" modules in
  let modules :=
    add_module "FileSystemTypes" NOT_STARTED [] ["CoreDTOs"] None None "" modules in
  add_module "SecurityTypes" NOT_STARTED
    [] ["CoreDTOs"; "SecurityInterfaces"] None None "" modules.

(** [update_module_status]: the returned boolean and the store afterwards.
    The record reached through [self.modules[name]] is mutated in place, so
    the entry keeps its key and its position. *)
Definition update_module_status (today : date) (name : string)
    (status : MigrationStatus) (migration_date : option date)
    (notes : option string) (modules : FactStore) : bool * FactStore :=
  match Dict.get name modules with
  | None => (false, modules)
  | Some module =>
      let module := set_status status module in
      let module :=
        if bool_decide (status = COMPLETED) && bool_decide (migration_date = None)
        then set_migration_date (Some today) module
        else
          match migration_date with
          | Some d => set_migration_date (Some d) module
          | None => module
          end in
      let module :=
        match notes with
        | Some n => set_notes n module
        | None => module
        end in
      (true, Dict.set name module modules)
  end.

(** *** Persistence *)

(** One record of the persisted snapshot, as [json.load] returns it: the
    JSON object at the six keys the loader reads, at the types of the
    dataclass annotations.  The outer [None] is an absent key; the inner
    [None] of [j_migration_date] and [j_blocking_issues] is JSON [null]. *)
Record module_data : Type := mkModuleData {
  j_status : option string;
  j_dependencies : option (list string);
  j_dependents : option (list string);
  j_migration_date : option (option string);
  j_blocking_issues : option (option (list string));
  j_notes : option string
}.

(** A value of the snapshot's top-level object: a JSON object, with the
    fields above, or any other JSON value (a list, a string, a number,
    [true], [false], [null]). *)
Inductive json_record : Type :=
  | RecordObject (fields : module_data)
  | RecordOther.

(** What [json.load] returns: a JSON object, or any other JSON value. *)
Inductive json_value : Type :=
  | Object (items : list (string * json_record))
  | NotObject.

(** The content of the data file, by what [json.load] makes of it: bytes
    that are not text in the encoding the file is opened with, text that is
    not JSON, JSON nested deeper than the parser can follow, JSON with an
    integer literal longer than the interpreter converts, or the text of a
    JSON value, identified with the value it parses to ([json.load] after
    [json.dump] is the identity on the values [save_data] writes). *)
Inductive file_content : Type :=
  | Undecodable
  | Garbage
  | TooDeep
  | HugeNumber
  | JsonText (value : json_value).

Definition json_load (f : file_content) : outcome json_value :=
  match f with
  | Undecodable => Raise UnicodeDecodeError
  | Garbage => Raise JSONDecodeError
  | TooDeep => Raise RecursionError
  | HugeNumber => Raise ValueError
  | JsonText value => Ok value
  end.

(** [data.items()] *)
Definition items (data : json_value) : outcome (list (string * json_record)) :=
  match data with
  | Object l => Ok l
  | NotObject => Raise AttributeError
  end.

(** [d[key]] *)
Definition getitem {A} (key : string) (v : option A) : outcome A :=
  match v with
  | Some a => Ok a
  | None => Raise (KeyError key)
  end.

(** [save_data]: the content written to the data file. *)
Definition save_data (modules : FactStore) : file_content :=
  JsonText
    (Object
       (foldl
          (λ data '(module_name, module_info),
             Dict.set module_name
               (RecordObject
                  {| j_status := Some (status_value (status module_info));
                     j_dependencies := Some (dependencies module_info);
                     j_dependents := Some (dependents module_info);
                     j_migration_date :=
                       Some (match migration_date module_info with
                             | Some d => Some (isoformat d)
                             | None => None
                             end);
                     j_blocking_issues :=
                       Some (Some (blocking_issues module_info));
                     j_notes := Some (notes module_info) |})
               data)
          [] modules)).

Section Loading.
(** What the installed [date.fromisoformat] reads beyond [YYYY-MM-DD]. *)
Variable other_formats : string → option date.

(** The [ModuleInfo(...)] expression of [_load_data]; its keyword arguments
    are evaluated from left to right. *)
Definition load_module (module_name : string) (module_data : module_data)
  : outcome ModuleInfo :=
  v ←! getitem "status" (j_status module_data);
  status ←! status_of_value v;
  dependencies ←! getitem "dependencies" (j_dependencies module_data);
  dependents ←! getitem "dependents" (j_dependents module_data);
  migration_date ←!
    match j_migration_date module_data with
    | Some (Some s) =>
        if decide (s = "") then Ok None
        else d ←! fromisoformat other_formats s; Ok (Some d)
    | Some None | None => Ok None
    end;
  Ok (ModuleInfo_new module_name status dependencies dependents migration_date
        (default (Some []) (j_blocking_issues module_data))
        (default "" (j_notes module_data))).

(** One turn of the loop of [_load_data]: subscripting a value that is
    not an object with ["status"] raises [TypeError]. *)
Definition load_record (module_name : string) (module_data : json_record)
  : outcome ModuleInfo :=
  match module_data with
  | RecordObject fields => load_module module_name fields
  | RecordOther => Raise TypeError
  end.

(** The loop of [_load_data]: the store as the loop leaves it, and how the
    loop ended. *)
Fixpoint load_modules (data : list (string * json_record)) (modules : FactStore)
  : FactStore * outcome () :=
  match data with
  | [] => (modules, Ok ())
  | (module_name, module_data) :: data' =>
      match load_record module_name module_data with
      | Ok m => load_modules data' (Dict.set module_name m modules)
      | Raise e => (modules, Raise e)
      end
  end.

(** [except (json.JSONDecodeError, KeyError)] *)
Definition caught (e : exn) : bool :=
  match e with
  | JSONDecodeError | KeyError _ => true
  | ValueError | UnicodeDecodeError | RecursionError | AttributeError
  | TypeError => false
  end.

(** [_load_data]; [file] is [None] when the data file does not exist. *)
Definition _load_data (today : date) (file : option file_content)
    (modules : FactStore) : outcome FactStore :=
  match file with
  | None => Ok (_initialize_default_modules today modules)
  | Some f =>
      let '(modules, r) :=
        match json_load f with
        | Ok data =>
            match items data with
            | Ok l => load_modules l modules
            | Raise e => (modules, Raise e)
            end
        | Raise e => (modules, Raise e)
        end in
      match r with
      | Ok _ => Ok modules
      | Raise e =>
          if caught e then Ok (_initialize_default_modules today modules)
          else Raise e
      end
  end.

(** [__init__]: [self.modules = {}], then [_load_data]. *)
Definition init (today : date) (file : option file_content) : outcome FactStore :=
  _load_data today file [].
End Loading.

(** *** Migration order *)

Record dfs_state : Type := mkDfs {
  visited : gset string;
  result : list string
}.

(** The local function [dfs] of [get_migration_order].  [depth] is the
    number of nested calls the interpreter still allows: a call made when
    none is left raises [RecursionError]. *)
Fixpoint dfs (depth : nat) (modules : FactStore) (module_name : string)
    (st : dfs_state) : outcome dfs_state :=
  match depth with
  | 0 => Raise RecursionError
  | S depth' =>
      if decide (module_name ∈ visited st) then Ok st
      else
        let st := mkDfs ({[module_name]} ∪ visited st) (result st) in
        module ←! getitem module_name (Dict.get module_name modules);
        st ←! for_each
                (λ dep st,
                   if Dict.mem dep modules then dfs depth' modules dep st
                   else Ok st)
                (dependencies module) st;
        Ok (mkDfs (visited st) (result st ++ [module_name]))
  end.

(** The two seeding loops: [result] as it stands before the final
    [reversed]. *)
Definition traversal (depth : nat) (modules : FactStore) : outcome (list string) :=
  let st := mkDfs ∅ [] in
  st ←! for_each
          (λ '(name, module) st,
             if bool_decide (dependents module = []) then dfs depth modules name st
             else Ok st)
          modules st;
  st ←! for_each (λ name st, dfs depth modules name st) (Dict.keys modules) st;
  Ok (result st).

(** [get_migration_order], called where the interpreter still allows
    [depth] nested calls of [dfs] (its recursion limit, 1000 unless it was
    raised, less the frames in use). *)
Definition get_migration_order (depth : nat) (modules : FactStore)
  : outcome (list string) :=
  result ←! traversal depth modules;
  Ok (reverse result).

End MigrationTracker.

(** ** The dependency analyzer *)

Module DependencyAnalyzer.

(** [self.valid_dependencies] as [__init__] sets it. *)
Definition valid_dependencies : gmap string (list string) :=
  list_to_map
    [ ("UmbraErrorKit", ["UmbraCoreTypes"]);
      ("UmbraInterfaces", ["UmbraCoreTypes"; "UmbraErrorKit"]);
      ("UmbraUtils", ["UmbraCoreTypes"]);
      ("UmbraImplementations",
         ["UmbraInterfaces"; "UmbraCoreTypes"; "UmbraErrorKit"; "UmbraUtils"]);
      ("UmbraFoundationBridge", ["UmbraCoreTypes"]);
      ("ResticKit", ["UmbraInterfaces"; "UmbraCoreTypes"; "UmbraUtils"]) ].

Section Rules.
(** The rule set is an attribute of the analyzer; the functions below
    read it and nothing else of [self]. *)
Variable valid_dependencies : gmap string (list string).

(** [is_dependency_valid] *)
Definition is_dependency_valid (source_pkg target_pkg : string) : bool :=
  if decide (source_pkg = target_pkg) then true
  else
    match valid_dependencies !! source_pkg with
    | None => false
    | Some allowed => bool_decide (target_pkg ∈ allowed)
    end.

(** The validation loops of [analyze_dependencies] over [package_deps]:
    the outer loop follows the mapping's insertion order, the inner one the
    order in which the set of targets is enumerated. *)
Definition invalid_deps (package_deps : list (string * list string))
  : list (string * string) :=
  foldl
    (λ (invalid_deps : list (string * string)) '(source_pkg, deps),
       foldl
         (λ (invalid_deps : list (string * string)) target_pkg,
            if negb (is_dependency_valid source_pkg target_pkg)
            then invalid_deps ++ [(source_pkg, target_pkg)]
            else invalid_deps)
         invalid_deps deps)
    [] package_deps.

(** The value [analyze_dependencies] returns once [package_deps] is
    built. *)
Definition analyze_dependencies (package_deps : list (string * list string))
  : bool :=
  match invalid_deps package_deps with
  | [] => true
  | _ :: _ => false
  end.
End Rules.

(** The (source, target) pairs of a mapping, in iteration order. *)
Definition edges (package_deps : list (string * list string))
  : list (string * string) :=
  flat_map (λ '(source_pkg, deps), map (pair source_pkg) deps) package_deps.

(** A mapping from package to a set of packages: distinct sources, and
    distinct targets for each source. *)
Definition package_deps_wf (package_deps : list (string * list string)) : Prop :=
  Dict.wf package_deps ∧ Forall (λ '(_, deps), NoDup deps) package_deps.

End DependencyAnalyzer.

(** ** Orders on names *)


Definition pair_le (p q : string * string) : bool :=
  match String.compare p.1 q.1 with
  | Lt => true
  | Eq => String.leb p.2 q.2
  | Gt => false
  end.

Fixpoint sorted_by {A} (le : A → A → bool) (l : list A) : bool :=
  match l with
  | [] => true
  | x :: l' =>
      match l' with
      | [] => true
      | y :: _ => le x y && sorted_by le l'
      end
  end.

(** ** Concrete stores and mappings *)

Module Examples.

Definition today : date := Date 2025 3 14.

(** A module that was added with the default arguments of [add_module]. *)
Definition plain (n : string) (deps dts : list string) : string * ModuleInfo :=
  (n, ModuleInfo_new n NOT_STARTED deps dts None None "").

(** [X] has no dependencies, [Y] depends on [X], [Z] depends on [Y]. *)
Definition chain_store : FactStore :=
  [plain "X" [] []; plain "Y" ["X"] []; plain "Z" ["Y"] []].

(** Three independent modules, inserted in an order that is not sorted. *)
Definition flat_store : FactStore :=
  [plain "B" [] []; plain "A" [] []; plain "C" [] []].


(** [P] and [Q] depend on each other, [R] on itself and on an untracked
    name; every [dependents] list is non-empty. *)
Definition cyclic_store : FactStore :=
  [plain "P" ["Q"] ["Q"]; plain "Q" ["P"] ["P"]; plain "R" ["R"; "Ghost"] ["R"]].

Definition default_store : FactStore :=
  MigrationTracker._initialize_default_modules today [].

(** Two packages with one forbidden dependency each, [UmbraUtils] met
    first. *)
Definition unsorted_package_deps : list (string * list string) :=
  [ ("UmbraUtils", ["UmbraInterfaces"; "UmbraCoreTypes"]);
    ("UmbraErrorKit", ["UmbraUtils"]) ].

(** [cyclic_store] with other statuses, notes and dates, an untracked
    dependency more, and other entries in the [dependents] lists. *)
Definition cyclic_store_variant : FactStore :=
  [ ("P", mkModuleInfo "P" BLOCKED ["Nowhere"; "Q"] ["R"; "X"] None ["bug"] "n");
    ("Q", mkModuleInfo "Q" COMPLETED ["P"] ["Y"] (Some today) [] "");
    ("R", mkModuleInfo "R" SKIPPED ["R"] ["P"] None [] "later") ].

(** Snapshot records: one that [save_data] could have written, one with a
    given [status] string, one without the [status] key. *)
Definition record_with_status (v : string) : MigrationTracker.module_data :=
  {| MigrationTracker.j_status := Some v;
     MigrationTracker.j_dependencies := Some [];
     MigrationTracker.j_dependents := Some ["CoreDTOs"];
     MigrationTracker.j_migration_date := Some None;
     MigrationTracker.j_blocking_issues := Some (Some []);
     MigrationTracker.j_notes := Some "" |}.

Definition record_without_status : MigrationTracker.module_data :=
  {| MigrationTracker.j_status := None;
     MigrationTracker.j_dependencies := Some [];
     MigrationTracker.j_dependents := Some [];
     MigrationTracker.j_migration_date := None;
     MigrationTracker.j_blocking_issues := None;
     MigrationTracker.j_notes := None |}.

Definition good_records : list (string * MigrationTracker.json_record) :=
  [("Legacy", MigrationTracker.RecordObject (record_with_status "Not Started"))].

(** [n] modules ["0"], ["1"], ... added in this order, each depending on
    the next one and the last on nothing; no dependents are recorded. *)
Definition deep_chain (n : nat) : FactStore :=
  (λ i, plain (pretty i) (if decide (S i < n) then [pretty (S i)] else []) [])
    <$> seq 0 n.

(** A [date.fromisoformat] that reads nothing but [YYYY-MM-DD] (Python up
    to 3.10), and one that also reads the basic form [YYYYMMDD] of one
    date. *)
Definition strict_formats : string → option date := λ _, None.

Definition basic_format_of_today : string → option date :=
  λ s, if decide (s = "20250314") then Some today else None.

End Examples.

(** ** Vocabulary of the ordering properties *)

(** The names the store tracks, as a set. *)
Definition tracked (modules : FactStore) : gset string :=
  list_to_set (Dict.keys modules).

(** [st'] is [st] after some more visits: the names appended to [result]
    are, without repetition, the names that became [visited], and these are
    tracked names. *)
Definition extends (modules : FactStore) (st st' : MigrationTracker.dfs_state)
  : Prop :=
  ∃ new,
    MigrationTracker.result st' = MigrationTracker.result st ++ new
    ∧ NoDup new
    ∧ (∀ x, x ∈ new ↔
         x ∈ MigrationTracker.visited st' ∧ x ∉ MigrationTracker.visited st)
    ∧ MigrationTracker.visited st ⊆ MigrationTracker.visited st'
    ∧ MigrationTracker.visited st' ⊆ MigrationTracker.visited st ∪ tracked modules.

(** [a] occurs strictly before [b] in [l]. *)
Definition precedes (a b : string) (l : list string) : Prop :=
  ∃ i j, l !! i = Some a ∧ l !! j = Some b ∧ i < j.





(** ** Stores the tracker builds *)

(** Every record is filed under its own name ([add_module] and [_load_data]
    do so, [update_module_status] keeps it), and every date is a calendar
    date (a [datetime.date] is). *)
Definition module_ok (entry : string * ModuleInfo) : Prop :=
  name entry.2 = entry.1
  ∧ match migration_date entry.2 with
    | Some d => date_ok d = true
    | None => True
    end.

Definition store_ok (modules : FactStore) : Prop :=
  Dict.wf modules ∧ Forall module_ok modules.

(** The JSON object [save_data] writes for one module. *)
Definition module_to_data (module_info : ModuleInfo)
  : MigrationTracker.module_data :=
  {| MigrationTracker.j_status := Some (status_value (status module_info));
     MigrationTracker.j_dependencies := Some (dependencies module_info);
     MigrationTracker.j_dependents := Some (dependents module_info);
     MigrationTracker.j_migration_date :=
       Some (match migration_date module_info with
             | Some d => Some (isoformat d)
             | None => None
             end);
     MigrationTracker.j_blocking_issues := Some (Some (blocking_issues module_info));
     MigrationTracker.j_notes := Some (notes module_info) |}.

(** The record [md] lacks the required key [k], and reading it gets as far
    as asking for [k]: the keys are read in the order [status],
    [dependencies], [dependents], and the status string is converted as
    soon as it is read. *)
Definition lacks_required (md : MigrationTracker.module_data) (k : string)
  : Prop :=
  (MigrationTracker.j_status md = None ∧ k = "status")
  ∨ (∃ v s, MigrationTracker.j_status md = Some v
            ∧ status_of_value v = Ok s
            ∧ ((MigrationTracker.j_dependencies md = None ∧ k = "dependencies")
               ∨ (is_Some (MigrationTracker.j_dependencies md)
                  ∧ MigrationTracker.j_dependents md = None
                  ∧ k = "dependents"))).

(** The names [_initialize_default_modules] adds, in order. *)
Definition default_names : list string :=
  ["UmbraErrors"; "CoreDTOs"; "UserDefaults"; "SecurityInterfaces";
   "Notification"; "Scheduling"; "FileSystemTypes"; "SecurityTypes"].

(** [a] lists [b] among its dependencies, and both are tracked. *)
Definition depends_on (modules : FactStore) (a b : string) : Prop :=
  ∃ m, Dict.get a modules = Some m ∧ b ∈ dependencies m ∧ b ∈ Dict.keys modules.

(** No module depends on itself, directly or through other modules. *)
Definition acyclic (modules : FactStore) : Prop :=
  ∀ a, ¬ tc (depends_on modules) a a.

(** In [l], the tracked dependencies of every listed module come before
    it. *)
Definition dependencies_first (modules : FactStore) (l : list string) : Prop :=
  ∀ x d, x ∈ l → depends_on modules x d → precedes d x l.

(** What the traversal maintains while the modules of [stack] are being
    visited: a visited module is finished or on the stack, and the finished
    ones have their dependencies before them. *)
Definition post_order (modules : FactStore) (stack : list string)
    (st : MigrationTracker.dfs_state) : Prop :=
  (∀ x, x ∈ MigrationTracker.visited st →
        x ∈ MigrationTracker.result st ∨ x ∈ stack)
  ∧ dependencies_first modules (MigrationTracker.result st).

(** ** Reporting and the command line of the tracker *)

(** [sorted(names)]: strings are compared as Python compares [str]. *)
Definition sorted_names (names : list string) : list string :=
  merge_sort String.le names.

(** The order [sorted(self.modules.items())] sorts by: the pairs are
    compared on their names, which are distinct in a dictionary. *)
Definition item_le (p q : string * ModuleInfo) : Prop := String.le p.1 q.1.

Global Instance item_le_dec : RelDecision item_le.
Proof. intros p q. unfold item_le. apply _. Defined.

Definition sorted_items (modules : FactStore) : FactStore :=
  merge_sort item_le modules.

(** [sep.join(parts)] *)
Fixpoint join (sep : string) (parts : list string) : string :=
  match parts with
  | [] => ""
  | [x] => x
  | x :: rest => x +:+ sep +:+ join sep rest
  end.

Module Report.

(** [export_csv]: the rows handed to the CSV writer, the header first. *)
Definition csv_header : list string :=
  ["Module"; "Status"; "Dependencies"; "Dependents"; "Migration Date";
   "Blocking Issues"; "Notes"].

Definition csv_row (item : string * ModuleInfo) : list string :=
  let '(name, module) := item in
  [ name;
    status_value (status module);
    join ", " (dependencies module);
    join ", " (dependents module);
    match migration_date module with Some d => isoformat d | None => "" end;
    join ", " (blocking_issues module);
    notes module ].

Definition export_csv (modules : FactStore) : list (list string) :=
  csv_header :: map csv_row (sorted_items modules).

(** The four counters of [print_status_report]; a [SKIPPED] module is
    counted by none of them. *)
Record counters : Type := mkCounters {
  completed : nat;
  in_progress : nat;
  not_started : nat;
  blocked : nat
}.

Definition count_module (c : counters) (item : string * ModuleInfo) : counters :=
  match status item.2 with
  | COMPLETED => mkCounters (S (completed c)) (in_progress c) (not_started c) (blocked c)
  | IN_PROGRESS => mkCounters (completed c) (S (in_progress c)) (not_started c) (blocked c)
  | NOT_STARTED => mkCounters (completed c) (in_progress c) (S (not_started c)) (blocked c)
  | BLOCKED => mkCounters (completed c) (in_progress c) (not_started c) (S (blocked c))
  | SKIPPED => c
  end.

Definition count_statuses (modules : FactStore) : counters :=
  foldl count_module (mkCounters 0 0 0 0) (sorted_items modules).

(** [for status in MigrationStatus]: the members in definition order. *)
Definition all_statuses : list MigrationStatus :=
  [NOT_STARTED; IN_PROGRESS; COMPLETED; BLOCKED; SKIPPED].

(** The "Modules by status" part: for each status that some module has,
    the names of its modules, sorted. *)
Definition modules_by_status (modules : FactStore)
  : list (MigrationStatus * list string) :=
  omap
    (λ s,
       let names := (filter (λ p, status p.2 = s) modules).*1 in
       match names with
       | [] => None
       | _ :: _ => Some (s, sorted_names names)
       end)
    all_statuses.

(** What [print_status_report] prints, without the time stamp and the
    percentages (floating point): the counters, the groups, and the
    suggested order with the status of each module. *)
Record status_report : Type := mkReport {
  total : nat;
  counts : counters;
  by_status : list (MigrationStatus * list string);
  suggested : list (MigrationStatus * string)
}.

Inductive report_result : Type :=
  | Printed (r : status_report)
  | ZeroDivisionError
  | OrderFailed (e : exn).

(** [print_status_report]: the percentages divide by [total], so an empty
    store raises [ZeroDivisionError] right after the total is printed.
    [depth] is the number of nested calls of [dfs] the interpreter allows
    where the report calls [get_migration_order]. *)
Definition print_status_report (depth : nat) (modules : FactStore)
  : report_result :=
  let counts := count_statuses modules in
  let total := length modules in
  if decide (total = 0) then ZeroDivisionError
  else
    let by_status := modules_by_status modules in
    match MigrationTracker.get_migration_order depth modules with
    | Ok migration_order =>
        match
          for_each
            (λ name (acc : list (MigrationStatus * string)),
               module ←! MigrationTracker.getitem name (Dict.get name modules);
               Ok (acc ++ [(status module, name)]))
            migration_order []
        with
        | Ok suggested => Printed (mkReport total counts by_status suggested)
        | Raise e => OrderFailed e
        end
    | Raise e => OrderFailed e
    end.

(** The [update] command of [main]: the data file after the run.  The file
    is written only when [update_module_status] succeeds. *)
Definition main_update (other_formats : string → option date) (today : date)
    (file : option MigrationTracker.file_content)
    (module : string) (status : MigrationStatus) (notes : option string)
  : outcome (option MigrationTracker.file_content) :=
  tracker ←! MigrationTracker.init other_formats today file;
  let '(updated, modules) :=
    MigrationTracker.update_module_status today module status None notes tracker in
  if updated then Ok (Some (MigrationTracker.save_data modules))
  else Ok file.

End Report.

(** ** Target labels and the collection of package dependencies *)

Module Str.

(** [s.startswith(prefix)] *)
Fixpoint startswith (prefix s : string) : bool :=
  match prefix with
  | "" => true
  | String c prefix' =>
      match s with
      | "" => false
      | String d s' => if decide (c = d) then startswith prefix' s' else false
      end
  end.

(** [s[n:]] *)
Fixpoint drop (n : nat) (s : string) : string :=
  match n, s with
  | 0, _ => s
  | S _, "" => ""
  | S n', String _ s' => drop n' s'
  end.

(** [c in s] for a single character [c] *)
Fixpoint contains (c : ascii) (s : string) : bool :=
  match s with
  | "" => false
  | String d s' => if decide (d = c) then true else contains c s'
  end.

(** [s.split(sep)] for a single character [sep]: the pieces between the
    separators, empty pieces included; never the empty list. *)
Fixpoint split (sep : ascii) (s : string) : list string :=
  match s with
  | "" => [""]
  | String c s' =>
      if decide (c = sep) then "" :: split sep s'
      else
        match split sep s' with
        | piece :: pieces => String c piece :: pieces
        | [] => [String c ""]
        end
  end.

(** [s.split(sep)[0]] *)
Definition first_piece (sep : ascii) (s : string) : string :=
  default s (split sep s !! 0).

End Str.

Module Targets.

(** [parse_target_name]: [None] is Python's [None]. *)
Definition parse_target_name (target : string) : option string :=
  let target := if Str.startswith "//" target then Str.drop 2 target else target in
  let target :=
    if Str.contains ":" target then default target (Str.split ":" target !! 0)
    else target in
  if Str.startswith "packages/" target then
    let parts := Str.split "/" target in
    if bool_decide (1 < length parts) then parts !! 1 else None
  else None.

Section Collect.
(** The rule set, and the answer of the build tool to [deps(target)]:
    [None] when the query failed or returned nothing, otherwise the [name]
    of each rule of the answer ([None] for a rule without a name). *)
Variable valid_dependencies : gmap string (list string).
Variable get_target_deps : string → option (list (option string)).

(** [target_pkg in self.valid_dependencies or target_pkg == "UmbraCoreTypes"] *)
Definition tracked_package (target_pkg : string) : bool :=
  bool_decide (is_Some (valid_dependencies !! target_pkg))
  || bool_decide (target_pkg = "UmbraCoreTypes").

(** [package_deps[source_pkg].add(target_pkg)] on a [defaultdict(set)] *)
Definition add_edge (source_pkg target_pkg : string)
    (package_deps : list (string * gset string)) : list (string * gset string) :=
  Dict.set source_pkg
    ({[target_pkg]} ∪ default ∅ (Dict.get source_pkg package_deps))
    package_deps.

(** The body of the loop over the dependencies of one target. *)
Definition process_dep (source_pkg : string)
    (package_deps : list (string * gset string)) (dep_name : option string)
  : list (string * gset string) :=
  match dep_name with
  | None => package_deps
  | Some dep_name =>
      if decide (dep_name = "") then package_deps
      else
        match parse_target_name dep_name with
        | None => package_deps
        | Some target_pkg =>
            if bool_decide (target_pkg = "") || bool_decide (target_pkg = source_pkg)
            then package_deps
            else if tracked_package target_pkg
            then add_edge source_pkg target_pkg package_deps
            else package_deps
        end
  end.

(** The body of the loop over the targets. *)
Definition process_target (package_deps : list (string * gset string))
    (target_name : option string) : list (string * gset string) :=
  match target_name with
  | None => package_deps
  | Some target_name =>
      if decide (target_name = "") then package_deps
      else
        match parse_target_name target_name with
        | None => package_deps
        | Some source_pkg =>
            if decide (source_pkg = "") then package_deps
            else
              match get_target_deps target_name with
              | None => package_deps
              | Some deps => foldl (process_dep source_pkg) package_deps deps
              end
        end
  end.

(** [package_deps] as the first half of [analyze_dependencies] builds it
    from the rules of [//packages/...]. *)
Definition collect_package_deps (target_rules : list (option string))
  : list (string * gset string) :=
  foldl process_target [] target_rules.

(** The mapping with each set enumerated (in some order; Python's own
    order is not modelled). *)
Definition enumerate (package_deps : list (string * gset string))
  : list (string * list string) :=
  map (λ '(source_pkg, deps), (source_pkg, elements deps)) package_deps.

(** [analyze_dependencies] from the answer to [//packages/...]: [None]
    when there are no targets, else whether every dependency is valid. *)
Definition analyze (all_targets : option (list (option string))) : option bool :=
  match all_targets with
  | None => None
  | Some target_rules =>
      Some (DependencyAnalyzer.analyze_dependencies valid_dependencies
              (enumerate (collect_package_deps target_rules)))
  end.

(** [sys.exit(0 if result else 1)] in [main] *)
Definition exit_code (result : option bool) : nat :=
  match result with
  | Some true => 0
  | Some false | None => 1
  end.
End Collect.

End Targets.

(** ** What the migration order reads *)

(** Of each module, in insertion order: its name, those of its
    dependencies that are tracked, and whether its [dependents] list is
    empty. *)
Definition order_view (modules : FactStore)
  : list (string * (list string * bool)) :=
  map (λ '(n, m),
         (n, (filter (λ d, d ∈ Dict.keys modules) (dependencies m),
              bool_decide (dependents m = []))))
      modules.

(** ** Vocabulary of the collection *)

(** [package_deps] records that [source] depends on [target]. *)
Definition has_edge (package_deps : list (string * gset string))
    (source target : string) : Prop :=
  ∃ deps, Dict.get source package_deps = Some deps ∧ target ∈ deps.

(** The build tool reported a dependency of a target of package [source]
    on a target of package [target]: both labels are non-empty and parse to
    non-empty package names. *)
Definition reported (get_target_deps : string → option (list (option string)))
    (target_rules : list (option string)) (source target : string) : Prop :=
  ∃ target_name deps dep_name,
    Some target_name ∈ target_rules ∧ target_name ≠ ""
    ∧ Targets.parse_target_name target_name = Some source ∧ source ≠ ""
    ∧ get_target_deps target_name = Some deps
    ∧ Some dep_name ∈ deps ∧ dep_name ≠ ""
    ∧ Targets.parse_target_name dep_name = Some target ∧ target ≠ "".

(** A small answer of the build tool. *)
Definition example_deps (target_name : string) : option (list (option string)) :=
  if decide (target_name = "//packages/UmbraUtils:UmbraUtils") then
    Some [ Some "//packages/UmbraUtils:UmbraUtilsTests";
           Some "//packages/UmbraInterfaces/Sources:Interfaces";
           Some "//packages/UmbraCoreTypes:UmbraCoreTypes";
           Some "@swift_pkgs//:CryptoSwift"; None;
           Some "//packages/Unlisted:Unlisted" ]
  else if decide (target_name = "//packages/UmbraErrorKit:UmbraErrorKit") then
    Some [Some "//packages/UmbraCoreTypes:UmbraCoreTypes"]
  else None.

Definition example_targets : list (option string) :=
  [ Some "//packages/UmbraUtils:UmbraUtils"; None;
    Some "//packages/UmbraErrorKit:UmbraErrorKit";
    Some "//packages/Broken:Broken" ].

(** What the collection maintains: distinct sources, no empty set, no
    empty name, no package depending on itself, tracked targets only. *)
Definition clean (valid_dependencies : gmap string (list string))
    (package_deps : list (string * gset string)) : Prop :=
  Dict.wf package_deps
  ∧ Forall
      (λ p, p.1 ≠ "" ∧ p.2 ≠ ∅
            ∧ ∀ t, t ∈ p.2 →
                t ≠ p.1 ∧ t ≠ ""
                ∧ Targets.tracked_package valid_dependencies t = true)
      package_deps.

(** * Properties *)

(** ** Dictionaries *)

Section DictFacts.
Context {V : Type}.
Implicit Types (d : list (string * V)) (k : string) (v : V).

Lemma dict_get_None k d : Dict.get k d = None ↔ k ∉ Dict.keys d.
Proof.
  unfold Dict.keys. induction d as [|[k' v'] d IH]; simpl.
  - split; [intros _; apply not_elem_of_nil | done].
  - destruct (decide (k = k')) as [->|Hne].
    + split; [done | intros Hk; exfalso; apply Hk; left].
    + rewrite IH, not_elem_of_cons. tauto.
Qed.

Lemma dict_get_is_Some k d : is_Some (Dict.get k d) ↔ k ∈ Dict.keys d.
Proof.
  destruct (decide (k ∈ Dict.keys d)) as [Hin|Hnot].
  - split; [done | intros _].
    destruct (Dict.get k d) eqn:E; [done|].
    by apply dict_get_None in E.
  - apply dict_get_None in Hnot as Hn. rewrite Hn.
    split; [by intros [? ?] | done].
Qed.

Lemma dict_mem_keys k d : Dict.mem k d = true ↔ k ∈ Dict.keys d.
Proof.
  rewrite <- dict_get_is_Some. unfold Dict.mem.
  destruct (Dict.get k d); split; try done; by intros [? ?].
Qed.

Lemma dict_get_elem_of k v d : Dict.get k d = Some v → (k, v) ∈ d.
Proof.
  induction d as [|[k' v'] d IH]; simpl; [done|].
  destruct (decide (k = k')) as [->|Hne].
  - intros [= ->]. left.
  - intros H. right. auto.
Qed.

Lemma dict_elem_of_get k v d : Dict.wf d → (k, v) ∈ d → Dict.get k d = Some v.
Proof.
  unfold Dict.wf, Dict.keys.
  induction d as [|[k' v'] d IH]; simpl; [by intros _ ?%elem_of_nil|].
  intros [Hk Hd]%NoDup_cons [Heq|Hin]%elem_of_cons.
  - simplify_eq. by rewrite decide_True.
  - destruct (decide (k = k')) as [->|Hne]; [|auto].
    exfalso. apply Hk. apply list_elem_of_fmap. by exists (k', v).
Qed.

Lemma dict_get_set_eq k v d : Dict.get k (Dict.set k v d) = Some v.
Proof.
  induction d as [|[k' v'] d IH]; simpl.
  - by rewrite decide_True.
  - destruct (decide (k = k')) as [->|Hne]; simpl.
    + by rewrite decide_True.
    + by rewrite decide_False.
Qed.

Lemma dict_get_set_ne k k' v d :
  k ≠ k' → Dict.get k' (Dict.set k v d) = Dict.get k' d.
Proof.
  intros Hne. induction d as [|[k0 v0] d IH]; simpl.
  - by rewrite decide_False.
  - destruct (decide (k = k0)) as [->|Hne0]; simpl.
    + by rewrite !decide_False.
    + by rewrite IH.
Qed.

(** Assigning to a key that is present keeps every key where it is. *)
Lemma dict_keys_set_present k v d :
  k ∈ Dict.keys d → Dict.keys (Dict.set k v d) = Dict.keys d.
Proof.
  unfold Dict.keys. induction d as [|[k0 v0] d IH]; simpl.
  - by intros ?%elem_of_nil.
  - intros Hin. destruct (decide (k = k0)) as [->|Hne]; simpl; [done|].
    f_equal. apply IH. by apply elem_of_cons in Hin as [?|?].
Qed.

(** Assigning to a new key appends it. *)
Lemma dict_set_fresh k v d :
  k ∉ Dict.keys d → Dict.set k v d = d ++ [(k, v)].
Proof.
  unfold Dict.keys. induction d as [|[k0 v0] d IH]; simpl; [done|].
  intros [Hne Hnot]%not_elem_of_cons.
  rewrite decide_False by done. by rewrite IH.
Qed.

Lemma dict_set_wf k v d : Dict.wf d → Dict.wf (Dict.set k v d).
Proof.
  intros Hwf. destruct (decide (k ∈ Dict.keys d)) as [Hin|Hnot].
  - unfold Dict.wf. by rewrite dict_keys_set_present.
  - rewrite dict_set_fresh by done. unfold Dict.wf, Dict.keys in *.
    rewrite fmap_app. simpl. apply NoDup_app. split_and!; [done| |apply NoDup_singleton].
    intros x Hx ->%list_elem_of_singleton. done.
Qed.
End DictFacts.

(** ** Updating a module's status *)

Section UpdateStatus.
Import MigrationTracker.
Implicit Types (modules : FactStore) (m : ModuleInfo) (n : string)
  (s : MigrationStatus) (d : option date) (nt : option string).

Lemma update_module_status_absent today n s d nt modules :
  Dict.get n modules = None →
  update_module_status today n s d nt modules = (false, modules).
Proof. unfold update_module_status. by intros ->. Qed.

(** On a tracked name the call succeeds and rebinds that name to a record
    that differs from the old one in [status], [migration_date] and [notes]
    at most. *)
Lemma update_module_status_present today n s d nt modules m :
  Dict.get n modules = Some m →
  ∃ m', update_module_status today n s d nt modules = (true, Dict.set n m' modules)
    ∧ name m' = name m
    ∧ status m' = s
    ∧ dependencies m' = dependencies m
    ∧ dependents m' = dependents m
    ∧ blocking_issues m' = blocking_issues m
    ∧ migration_date m' =
        match d with
        | Some x => Some x
        | None => if bool_decide (s = COMPLETED) then Some today
                  else migration_date m
        end
    ∧ notes m' = default (notes m) nt.
Proof.
  intros Hget. unfold update_module_status. rewrite Hget.
  eexists. split; [reflexivity|].
  destruct d as [x|], nt as [t|], (bool_decide (s = COMPLETED)); simpl; done.
Qed.

(** C6. [update_module_status] on a name that the Fact Store does not
    track returns [False] (no exception is raised) and leaves the Fact
    Store as it was. *)
Theorem update_module_status_not_found today n s d nt modules :
  n ∉ Dict.keys modules →
  update_module_status today n s d nt modules = (false, modules).
Proof. intros Hn. apply update_module_status_absent. by apply dict_get_None. Qed.

(** C7. For a tracked name, [update_module_status] with status
    [COMPLETED] and no explicit date succeeds; afterwards the module's
    status is [COMPLETED] and its migration date is today's date. *)
Theorem update_module_status_completed_stamps_today today n nt modules :
  n ∈ Dict.keys modules →
  ∃ modules' m',
    update_module_status today n COMPLETED None nt modules = (true, modules')
    ∧ Dict.get n modules' = Some m'
    ∧ status m' = COMPLETED
    ∧ migration_date m' = Some today.
Proof.
  intros [m Hm]%dict_get_is_Some.
  destruct (update_module_status_present today n COMPLETED None nt modules m Hm)
    as (m' & Hup & _ & Hs & _ & _ & _ & Hd & _).
  exists (Dict.set n m' modules), m'.
  split_and!; [done | apply dict_get_set_eq | done | done].
Qed.

(** C10. A successful [update_module_status] changes at most the
    [status], [migration_date] and [notes] of the named module: the keys of
    the store and their order, the module's [name], [dependencies],
    [dependents] and [blocking_issues], and the record of every other name
    are as before, and so are the [notes] when none are passed. *)
Theorem update_module_status_frame today n s d nt modules :
  n ∈ Dict.keys modules →
  ∃ modules' m m',
    update_module_status today n s d nt modules = (true, modules')
    ∧ Dict.keys modules' = Dict.keys modules
    ∧ (∀ other, other ≠ n → Dict.get other modules' = Dict.get other modules)
    ∧ Dict.get n modules = Some m
    ∧ Dict.get n modules' = Some m'
    ∧ name m' = name m
    ∧ dependencies m' = dependencies m
    ∧ dependents m' = dependents m
    ∧ blocking_issues m' = blocking_issues m
    ∧ (nt = None → notes m' = notes m).
Proof.
  intros Hin. destruct (proj2 (dict_get_is_Some n modules) Hin) as [m Hm].
  destruct (update_module_status_present today n s d nt modules m Hm)
    as (m' & Hup & Hname & _ & Hdeps & Hdts & Hbl & _ & Hnotes).
  exists (Dict.set n m' modules), m, m'.
  split_and!; try done.
  - by apply dict_keys_set_present.
  - intros other Hne. by apply dict_get_set_ne.
  - apply dict_get_set_eq.
  - intros ->. done.
Qed.
End UpdateStatus.

(** ** The rule set and the validator *)

Section Validator.
Import DependencyAnalyzer.
Variable rules : gmap string (list string).
Implicit Types (source target : string)
  (package_deps : list (string * list string)).

Lemma is_dependency_valid_self source :
  is_dependency_valid rules source source = true.
Proof. unfold is_dependency_valid. by rewrite decide_True. Qed.

Lemma is_dependency_valid_unknown source target :
  rules !! source = None → source ≠ target →
  is_dependency_valid rules source target = false.
Proof.
  intros Hnone Hne. unfold is_dependency_valid.
  rewrite decide_False by done. by rewrite Hnone.
Qed.

(** C4. [is_dependency_valid] answers [True] exactly when the two
    packages are the same or the target is in the allow-list of the
    source.  So a package depending on itself is always valid, and an
    unknown source with a different target is invalid ([False] is
    returned, nothing is raised). *)
Theorem is_dependency_valid_spec source target :
  (is_dependency_valid rules source target = true ↔
     source = target ∨
     ∃ allowed, rules !! source = Some allowed ∧ target ∈ allowed)
  ∧ is_dependency_valid rules source source = true
  ∧ (rules !! source = None → source ≠ target →
     is_dependency_valid rules source target = false).
Proof.
  split_and!;
    [| apply is_dependency_valid_self | apply is_dependency_valid_unknown].
  unfold is_dependency_valid.
  destruct (decide (source = target)) as [Heq|Hne].
  { split; [by left | done]. }
  destruct (rules !! source) as [allowed|] eqn:Hr.
  - rewrite bool_decide_eq_true. split.
    + intros Hin. right. by exists allowed.
    + intros [Heq|[allowed' [[= <-] Hin]]]; done.
  - split; [done|]. intros [Heq|[allowed' [[=] _]]]. done.
Qed.

(** The inner loop appends the invalid targets of one source. *)
Lemma invalid_deps_inner source (deps : list string) (acc : list (string * string)) :
  foldl
    (λ (invalid_deps : list (string * string)) target_pkg,
       if negb (is_dependency_valid rules source target_pkg)
       then invalid_deps ++ [(source, target_pkg)]
       else invalid_deps)
    acc deps
  = acc ++ filter (λ p, is_dependency_valid rules p.1 p.2 = false)
             (map (pair source) deps).
Proof.
  revert acc. induction deps as [|t deps IH]; intros acc; simpl.
  - by rewrite app_nil_r.
  - rewrite IH, filter_cons. simpl.
    destruct (is_dependency_valid rules source t); simpl.
    + done.
    + by rewrite <- app_assoc.
Qed.

Lemma invalid_deps_outer package_deps (acc : list (string * string)) :
  foldl
    (λ (invalid_deps : list (string * string)) '(source_pkg, deps),
       foldl
         (λ (invalid_deps : list (string * string)) target_pkg,
            if negb (is_dependency_valid rules source_pkg target_pkg)
            then invalid_deps ++ [(source_pkg, target_pkg)]
            else invalid_deps)
         invalid_deps deps)
    acc package_deps
  = acc ++ filter (λ p, is_dependency_valid rules p.1 p.2 = false)
             (edges package_deps).
Proof.
  revert acc. induction package_deps as [|[s deps] pd IH]; intros acc; simpl.
  - by rewrite app_nil_r.
  - rewrite IH, invalid_deps_inner, filter_app. by rewrite <- app_assoc.
Qed.

(** The violations are the invalid edges, in the order of [edges]. *)
Lemma invalid_deps_filter package_deps :
  invalid_deps rules package_deps
  = filter (λ p, is_dependency_valid rules p.1 p.2 = false) (edges package_deps).
Proof. unfold invalid_deps. by rewrite invalid_deps_outer. Qed.

Lemma elem_of_edges source target package_deps :
  (source, target) ∈ edges package_deps ↔
  ∃ deps, (source, deps) ∈ package_deps ∧ target ∈ deps.
Proof.
  unfold edges. rewrite list_elem_of_In, in_flat_map. split.
  - intros [[s deps] [Hin Hp]]. apply in_map_iff in Hp as [t [Heq Ht]].
    simplify_eq. exists deps. by rewrite !list_elem_of_In.
  - intros [deps [Hin Ht]]. exists (source, deps).
    rewrite list_elem_of_In in Hin. rewrite list_elem_of_In in Ht. split; [done|].
    apply in_map_iff. by exists target.
Qed.

Lemma edges_NoDup package_deps :
  package_deps_wf package_deps → NoDup (edges package_deps).
Proof.
  unfold package_deps_wf, Dict.wf, Dict.keys, edges.
  induction package_deps as [|[s deps] pd IH]; simpl; intros [Hk Hf].
  - constructor.
  - apply NoDup_cons in Hk as [Hs Hk]. apply Forall_cons in Hf as [Hd Hf].
    apply NoDup_app. split_and!.
    + apply NoDup_fmap_2; [|done]. by intros ?? [= ->].
    + intros [s' t] [t' [Heq _]]%list_elem_of_fmap Hin. simplify_eq.
      apply elem_of_edges in Hin as [deps' [Hin _]].
      apply Hs. apply list_elem_of_fmap. by exists (s, deps').
    + by apply IH.
Qed.

(** C2 (amended). The validator collects exactly the pairs of the mapping
    that [is_dependency_valid] rejects, in the order in which the mapping
    is iterated (sources in insertion order, the targets of a source in the
    order its set enumerates them), each pair once; nothing is sorted. *)
Theorem invalid_deps_spec package_deps :
  invalid_deps rules package_deps
    = filter (λ p, is_dependency_valid rules p.1 p.2 = false) (edges package_deps)
  ∧ (∀ source target,
       (source, target) ∈ invalid_deps rules package_deps ↔
       (∃ deps, (source, deps) ∈ package_deps ∧ target ∈ deps)
       ∧ is_dependency_valid rules source target = false)
  ∧ (package_deps_wf package_deps → NoDup (invalid_deps rules package_deps)).
Proof.
  split_and!.
  - apply invalid_deps_filter.
  - intros source target.
    by rewrite invalid_deps_filter, list_elem_of_filter, elem_of_edges, (comm and).
  - intros Hwf. rewrite invalid_deps_filter.
    by apply NoDup_filter, edges_NoDup.
Qed.
End Validator.


(** C2, as stated, fails: the two violations below come out in the order in
    which their sources were inserted, which is not the sorted order. *)
Lemma invalid_deps_not_sorted :
  DependencyAnalyzer.package_deps_wf Examples.unsorted_package_deps
  ∧ DependencyAnalyzer.invalid_deps DependencyAnalyzer.valid_dependencies
      Examples.unsorted_package_deps
    = [("UmbraUtils", "UmbraInterfaces"); ("UmbraErrorKit", "UmbraUtils")]
  ∧ sorted_by pair_le
      (DependencyAnalyzer.invalid_deps DependencyAnalyzer.valid_dependencies
         Examples.unsorted_package_deps) = false.
Proof.
  split_and!; [|by vm_compute..].
  split; [compute_done|].
  repeat constructor; compute_done.
Qed.

Lemma invalid_deps_spec_witness :
  NoDup (DependencyAnalyzer.invalid_deps DependencyAnalyzer.valid_dependencies
           Examples.unsorted_package_deps).
Proof.
  apply (invalid_deps_spec DependencyAnalyzer.valid_dependencies
           Examples.unsorted_package_deps).
  split; [compute_done|].
  repeat constructor; compute_done.
Defined.

Lemma is_dependency_valid_spec_witness :
  DependencyAnalyzer.is_dependency_valid DependencyAnalyzer.valid_dependencies
    "Legacy" "UmbraCoreTypes" = false.
Proof.
  apply (is_dependency_valid_spec DependencyAnalyzer.valid_dependencies
           "Legacy" "UmbraCoreTypes").
  - by vm_compute.
  - compute_done.
Defined.

(** ** The migration order *)

Section Traversal.
Import MigrationTracker.
Variable modules : FactStore.
Implicit Types (st : dfs_state) (n : string) (depth : nat).

Lemma elem_of_tracked n : n ∈ tracked modules ↔ n ∈ Dict.keys modules.
Proof. unfold tracked. apply elem_of_list_to_set. Qed.

Lemma extends_refl st : extends modules st st.
Proof.
  exists []. split_and!.
  - by rewrite app_nil_r.
  - constructor.
  - intros x. split; [by intros ?%elem_of_nil | by intros [? ?]].
  - done.
  - set_solver.
Qed.

Lemma extends_trans st1 st2 st3 :
  extends modules st1 st2 → extends modules st2 st3 → extends modules st1 st3.
Proof.
  intros (new1 & Hr1 & Hnd1 & Hin1 & Hsub1 & Htr1)
         (new2 & Hr2 & Hnd2 & Hin2 & Hsub2 & Htr2).
  exists (new1 ++ new2). split_and!.
  - by rewrite Hr2, Hr1, <- app_assoc.
  - apply NoDup_app. split_and!; [done | | done].
    intros x Hx1%Hin1 Hx2%Hin2. tauto.
  - intros x. rewrite elem_of_app, Hin1, Hin2.
    destruct (decide (x ∈ visited st2)); set_solver.
  - set_solver.
  - set_solver.
Qed.

(** Visits shrink the set of names not yet visited. *)
Lemma extends_unvisited st st' :
  extends modules st st' →
  size (tracked modules ∖ visited st') ≤ size (tracked modules ∖ visited st).
Proof.
  intros (_ & _ & _ & _ & Hsub & _). apply subseteq_size. set_solver.
Qed.

(** A loop whose body extends the state and keeps [Inv], given a nested
    call for each name not yet visited, does so too; what the body
    establishes for each element ([Q], stable under further visits) holds
    at the end. *)
Lemma for_each_extends {A} (body : A → dfs_state → outcome dfs_state)
    (Inv : dfs_state → Prop) (Q : A → dfs_state → Prop) depth (l : list A) st :
  (∀ x st st', Q x st → extends modules st st' → Q x st') →
  (∀ x st, x ∈ l → Inv st → size (tracked modules ∖ visited st) < depth →
     ∃ st', body x st = Ok st' ∧ extends modules st st' ∧ Inv st' ∧ Q x st') →
  Inv st →
  size (tracked modules ∖ visited st) < depth →
  ∃ st', for_each body l st = Ok st' ∧ extends modules st st' ∧ Inv st'
         ∧ ∀ x, x ∈ l → Q x st'.
Proof.
  intros Hmono. revert st. induction l as [|x l IH]; intros st Hbody Hinv Hdepth.
  - exists st. split_and!; [done | apply extends_refl | done |].
    by intros x ?%elem_of_nil.
  - destruct (Hbody x st) as (st1 & Hx & Hext1 & Hinv1 & HQ); [left | done | done |].
    destruct (IH st1) as (st2 & Hl & Hext2 & Hinv2 & HQl).
    + intros y st0 Hy. apply Hbody. by right.
    + done.
    + pose proof (extends_unvisited _ _ Hext1). lia.
    + exists st2. simpl. rewrite Hx. simpl. split_and!; [done | | done |].
      * by eapply extends_trans.
      * intros y [->|Hy]%elem_of_cons; [by eapply Hmono | by apply HQl].
Qed.

(** With a nested call left for every name not yet visited, [dfs] on a
    tracked name returns normally, and the name is visited afterwards. *)
Lemma dfs_extends depth n st :
  n ∈ tracked modules →
  size (tracked modules ∖ visited st) < depth →
  ∃ st', dfs depth modules n st = Ok st' ∧ extends modules st st'
         ∧ n ∈ visited st'.
Proof.
  revert n st. induction depth as [|depth IH]; intros n st Hn Hdepth; [lia|].
  simpl. destruct (decide (n ∈ visited st)) as [Hv|Hv].
  { exists st. split_and!; [done | apply extends_refl | done]. }
  destruct (proj2 (dict_get_is_Some n modules)) as [m Hm].
  { by apply elem_of_tracked. }
  rewrite Hm. simpl.
  set (st1 := mkDfs ({[n]} ∪ visited st) (result st)).
  assert (Hlt : size (tracked modules ∖ visited st1) < size (tracked modules ∖ visited st)).
  { apply subset_size. subst st1. simpl. set_solver. }
  destruct (for_each_extends
              (λ dep st, if Dict.mem dep modules then dfs depth modules dep st
                         else Ok st)
              (λ _, True) (λ _ _, True) depth (dependencies m) st1)
    as (st2 & Hloop & (new & Hr & Hnd & Hin & Hsub & Htr) & _).
  - done.
  - intros dep st0 _ _ Hf0. destruct (Dict.mem dep modules) eqn:Hmem.
    + destruct (IH dep st0) as (st' & ? & ? & _); [|done|by exists st'].
      by apply elem_of_tracked, dict_mem_keys.
    + exists st0. split_and!; [done | apply extends_refl | done | done].
  - done.
  - lia.
  - rewrite Hloop. simpl. eexists. split; [reflexivity|].
    subst st1. simpl in *. split.
    + exists (new ++ [n]). simpl. split_and!.
      * by rewrite Hr, <- app_assoc.
      * apply NoDup_app. split_and!; [done | | apply NoDup_singleton].
        intros x Hx%Hin ->%list_elem_of_singleton. set_solver.
      * intros x. rewrite elem_of_app, Hin, list_elem_of_singleton.
        destruct (decide (x = n)) as [->|Hne]; set_solver.
      * set_solver.
      * set_solver.
    + set_solver.
Qed.
End Traversal.

Section Totality.
Import MigrationTracker.
Variable modules : FactStore.
Hypothesis modules_wf : Dict.wf modules.

Lemma size_tracked : size (tracked modules) = length modules.
Proof.
  unfold tracked. rewrite size_list_to_set by done.
  unfold Dict.keys. by rewrite length_fmap.
Qed.

(** With more nested calls allowed than there are modules, the two seeding loops return normally,
    and [result] then lists every tracked name once; an invariant that
    [dfs] keeps holds at the end. *)
Lemma traversal_invariant depth (Inv : dfs_state → Prop) :
  (∀ n st, n ∈ tracked modules → Inv st →
     size (tracked modules ∖ visited st) < depth →
     ∃ st', dfs depth modules n st = Ok st' ∧ extends modules st st'
            ∧ n ∈ visited st' ∧ Inv st') →
  Inv (mkDfs ∅ []) →
  length modules < depth →
  ∃ st, traversal depth modules = Ok (result st) ∧ Inv st ∧ NoDup (result st)
        ∧ ∀ x, x ∈ result st ↔ x ∈ Dict.keys modules.
Proof.
  intros Hdfs Hinv0 Hdepth. unfold traversal.
  set (st0 := mkDfs ∅ []).
  assert (Hf0 : size (tracked modules ∖ visited st0) < depth).
  { rewrite <- size_tracked in Hdepth.
    eapply Nat.le_lt_trans; [apply subseteq_size|exact Hdepth]. set_solver. }
  destruct (for_each_extends modules
              (λ '(name, module) st,
                 if bool_decide (dependents module = [])
                 then dfs depth modules name st else Ok st)
              Inv (λ _ _, True) depth modules st0)
    as (st1 & Hloop1 & Hext1 & Hinv1 & _); [done| |done|done|].
  { intros [n m] st Hin Hinv Hf. destruct (bool_decide (dependents m = [])).
    - destruct (Hdfs n st) as (st' & ? & ? & _ & ?); [|done|done|by exists st'].
      apply elem_of_tracked. unfold Dict.keys. apply list_elem_of_fmap.
      by exists (n, m).
    - exists st. split_and!; [done | apply extends_refl | done | done]. }
  rewrite Hloop1. cbn [obind].
  destruct (for_each_extends modules
              (λ name st, dfs depth modules name st)
              Inv (λ name st, name ∈ visited st) depth
              (Dict.keys modules) st1)
    as (st2 & Hloop2 & Hext2 & Hinv2 & Hall).
  { intros x st st' Hx (_ & _ & _ & _ & Hsub & _). set_solver. }
  { intros n st Hin Hinv Hf.
    destruct (Hdfs n st) as (st' & ? & ? & ? & ?);
      [by apply elem_of_tracked | done | done | by exists st']. }
  { done. }
  { pose proof (extends_unvisited _ _ _ Hext1). lia. }
  rewrite Hloop2. cbn [obind]. exists st2. split; [done|]. split; [done|].
  destruct (extends_trans _ _ _ _ Hext1 Hext2)
    as (new & Hr & Hnd & Hin & _ & Htr).
  subst st0. simpl in *. subst new. split; [done|].
  intros x. rewrite Hin. split.
  - intros [Hv _]. apply elem_of_tracked. set_solver.
  - intros Hx. split; [by apply Hall | set_solver].
Qed.

Lemma traversal_total depth :
  length modules < depth →
  ∃ r, traversal depth modules = Ok r ∧ NoDup r
       ∧ ∀ x, x ∈ r ↔ x ∈ Dict.keys modules.
Proof.
  intros Hdepth.
  destruct (traversal_invariant depth (λ _, True)) as (st & Hr & _ & Hnd & Hin);
    [|done|done|by exists (result st)].
  intros n st Hn _ Hf.
  destruct (dfs_extends modules depth n st) as (st' & ? & ? & ?);
    [done | done | by exists st'].
Qed.

Lemma get_migration_order_within_depth depth :
  length modules < depth →
  ∃ order, get_migration_order depth modules = Ok order
           ∧ NoDup order ∧ order ≡ₚ Dict.keys modules.
Proof.
  intros Hdepth. destruct (traversal_total depth Hdepth) as (r & Hr & Hnd & Hin).
  unfold get_migration_order. rewrite Hr. simpl.
  eexists. split; [reflexivity|]. split.
  - by rewrite reverse_Permutation.
  - rewrite reverse_Permutation. by apply NoDup_Permutation.
Qed.
End Totality.

(** A chain of dependencies as long as the store needs as many nested
    calls of [dfs] as it has modules. *)
Lemma deep_chain_wf n : Dict.wf (Examples.deep_chain n).
Proof.
  unfold Dict.wf, Dict.keys, Examples.deep_chain.
  rewrite <- list_fmap_compose.
  apply NoDup_fmap_2_strong; [|apply NoDup_seq].
  intros i j _ _ Heq. simpl in Heq. by apply (inj pretty) in Heq.
Qed.

(** C5.  Where the interpreter still allows more nested calls of [dfs]
    than the Fact Store has modules, [get_migration_order] returns
    normally, and the list it returns holds every module name of the store
    exactly once; nothing is assumed of the [dependents] lists or of the
    dependency graph, which may have cycles. *)
Theorem get_migration_order_total (depth : nat) (modules : FactStore) :
  Dict.wf modules →
  length modules < depth →
  ∃ order, MigrationTracker.get_migration_order depth modules = Ok order
           ∧ NoDup order
           ∧ order ≡ₚ Dict.keys modules.
Proof.
  intros Hwf Hdepth. by apply get_migration_order_within_depth.
Qed.

Lemma get_migration_order_total_witness :
  ∃ order,
    MigrationTracker.get_migration_order 1000 Examples.cyclic_store = Ok order
    ∧ NoDup order
    ∧ order ≡ₚ Dict.keys Examples.cyclic_store.
Proof.
  apply (get_migration_order_total 1000 Examples.cyclic_store).
  - unfold Dict.wf. compute_done.
  - simpl. lia.
Defined.

(** C5, as the claim words it, fails: on a store of 1100 modules, each
    depending on the next, [dfs] nests 1100 deep from the first module,
    and with the interpreter's default limit of 1000 frames the call
    raises [RecursionError]. *)
Lemma get_migration_order_recursion_error :
  Dict.wf (Examples.deep_chain 1100)
  ∧ length (Examples.deep_chain 1100) = 1100
  ∧ MigrationTracker.get_migration_order 1000 (Examples.deep_chain 1100)
    = Raise RecursionError.
Proof.
  split; [apply deep_chain_wf|]. split; [reflexivity|].
  vm_compute. reflexivity.
Qed.

(** *** Stores without dependencies *)

Section NoDependencies.
Import MigrationTracker.
Variable modules : FactStore.
Hypothesis modules_wf : Dict.wf modules.
Hypothesis no_dependencies : ∀ n m, (n, m) ∈ modules → dependencies m = [].



End NoDependencies.









(** ** Persistence *)

Section Dates.
Local Open Scope N_scope.

(** Linear arithmetic with quotients and remainders by constants. *)
Local Ltac lia_div := zify; Z.to_euclidean_division_equations; lia.

Lemma char_digit_digit_char (n : N) : char_digit (digit_char n) = Some (n mod 10).
Proof.
  unfold char_digit, digit_char.
  rewrite N_ascii_embedding by lia_div. cbv zeta.
  assert (H1 : (48 <=? 48 + n mod 10) = true) by (apply N.leb_le; lia_div).
  assert (H2 : (48 + n mod 10 <=? 57) = true) by (apply N.leb_le; lia_div).
  rewrite H1, H2. cbn [andb]. f_equal. lia_div.
Qed.

(** Reading back what [isoformat] wrote gives the date. *)
Lemma fromisoformat_isoformat other_formats (d : date) :
  date_ok d = true → fromisoformat other_formats (isoformat d) = Ok d.
Proof.
  intros Hok. unfold isoformat, fromisoformat, parse_ymd.
  rewrite !char_digit_digit_char.
  destruct d as [y m dd]. cbn [year month day] in *.
  assert (Hb : 1 ≤ y ≤ 9999 ∧ 1 ≤ m ≤ 12 ∧ 1 ≤ dd ≤ 31).
  { unfold date_ok, days_in_month in Hok. cbn [year month day] in Hok.
    repeat (apply andb_prop in Hok as [Hok ?]).
    repeat match goal with H : (_ <=? _) = true |- _ => apply N.leb_le in H end.
    split_and!; try lia.
    repeat (case_match; try lia). }
  replace (1000 * ((y / 1000) mod 10) + 100 * ((y / 100) mod 10)
           + 10 * ((y / 10) mod 10) + y mod 10) with y by lia_div.
  replace (10 * ((m / 10) mod 10) + m mod 10) with m by lia_div.
  replace (10 * ((dd / 10) mod 10) + dd mod 10) with dd by lia_div.
  rewrite !bool_decide_eq_true_2 by done. cbn [andb]. by rewrite Hok.
Qed.

Lemma isoformat_nonempty (d : date) : isoformat d ≠ "".
Proof. done. Qed.
End Dates.

Lemma status_of_value_status_value (s : MigrationStatus) :
  status_of_value (status_value s) = Ok s.
Proof. by destruct s. Qed.

Section Persistence.
Import MigrationTracker.
Variable other_formats : string → option date.

Lemma load_module_module_to_data (n : string) (m : ModuleInfo) :
  module_ok (n, m) → load_module other_formats n (module_to_data m) = Ok m.
Proof.
  intros [Hname Hdate]. cbn [fst snd] in *.
  unfold load_module, module_to_data. cbn -[isoformat fromisoformat status_of_value].
  rewrite status_of_value_status_value. cbn -[isoformat fromisoformat].
  destruct m as [nm s deps dts [d|] bl nt]; cbn -[isoformat fromisoformat] in *; subst.
  - rewrite decide_False by apply isoformat_nonempty.
    by rewrite fromisoformat_isoformat.
  - done.
Qed.

(** Filling a dictionary with new, distinct keys appends them in order. *)
Lemma foldl_set_fresh {A B} (f : A → B) (l : list (string * A))
    (acc : list (string * B)) :
  NoDup (Dict.keys acc ++ Dict.keys l) →
  foldl (λ data '(k, v), Dict.set k (f v) data) acc l
  = acc ++ map (λ '(k, v), (k, f v)) l.
Proof.
  revert acc. induction l as [|[k v] l IH]; intros acc Hnd; simpl.
  - by rewrite app_nil_r.
  - unfold Dict.keys in *. simpl in Hnd.
    rewrite IH.
    + rewrite dict_set_fresh; [by rewrite <- app_assoc|].
      apply NoDup_app in Hnd as (_ & Hdisj & _).
      intros Hk. apply (Hdisj k Hk). left.
    + rewrite dict_set_fresh.
      * rewrite fmap_app. simpl. by rewrite <- app_assoc.
      * apply NoDup_app in Hnd as (_ & Hdisj & _).
        intros Hk. apply (Hdisj k Hk). left.
Qed.

Lemma save_data_wf (modules : FactStore) :
  Dict.wf modules →
  save_data modules
  = JsonText
      (Object (map (λ '(n, m), (n, RecordObject (module_to_data m))) modules)).
Proof.
  intros Hwf. unfold save_data. do 2 f_equal.
  by apply (foldl_set_fresh (λ m, RecordObject (module_to_data m)) modules []).
Qed.

Lemma load_modules_saved (modules acc : FactStore) :
  NoDup (Dict.keys acc ++ Dict.keys modules) →
  Forall module_ok modules →
  load_modules other_formats
    (map (λ '(n, m), (n, RecordObject (module_to_data m))) modules) acc
  = (acc ++ modules, Ok ()).
Proof.
  revert acc. induction modules as [|[n m] modules IH]; intros acc Hnd Hok; simpl.
  - by rewrite app_nil_r.
  - apply Forall_cons in Hok as [Hm Hok].
    rewrite load_module_module_to_data by done.
    unfold Dict.keys in *. simpl in Hnd.
    assert (n ∉ acc.*1).
    { apply NoDup_app in Hnd as (_ & Hdisj & _).
      intros Hk. apply (Hdisj n Hk). left. }
    rewrite dict_set_fresh by done.
    rewrite IH; [by rewrite <- app_assoc | | done].
    rewrite fmap_app. simpl. by rewrite <- app_assoc.
Qed.
End Persistence.

(** C8. Loading the snapshot that [save_data] wrote gives back the Fact
    Store: the same names in the same order, each with the same status,
    dependencies, dependents, migration date, blocking issues and notes. *)
Theorem save_load_round_trip (other_formats : string → option date)
    (today : date) (modules : FactStore) :
  store_ok modules →
  MigrationTracker.init other_formats today
    (Some (MigrationTracker.save_data modules))
  = Ok modules.
Proof.
  intros [Hwf Hok]. unfold MigrationTracker.init, MigrationTracker._load_data.
  rewrite save_data_wf by done. simpl.
  by rewrite (load_modules_saved other_formats modules []).
Qed.

Lemma save_load_round_trip_witness :
  MigrationTracker.init Examples.strict_formats Examples.today
    (Some (MigrationTracker.save_data Examples.default_store))
  = Ok Examples.default_store.
Proof.
  apply (save_load_round_trip Examples.strict_formats Examples.today
           Examples.default_store).
  split.
  - unfold Dict.wf. compute_done.
  - repeat constructor.
Defined.

(** *** Falling back to the default modules *)

Section Fallback.
Import MigrationTracker.
Variable other_formats : string → option date.

Lemma default_modules_keys (today : date) :
  Dict.keys (_initialize_default_modules today []) = default_names.
Proof. reflexivity. Qed.

(** A record without one of the three required keys is recovered from as
    well; the records loaded before it stay in the store. *)
Lemma load_data_missing_key (today : date) data (modules modules' : FactStore) k :
  load_modules other_formats data modules = (modules', Raise (KeyError k)) →
  _load_data other_formats today (Some (JsonText (Object data))) modules
  = Ok (_initialize_default_modules today modules').
Proof. intros H. unfold _load_data. simpl. by rewrite H. Qed.

(** An exception of the loop that the handler does not name ([ValueError]
    for a status that is none of the five values or a malformed date,
    [TypeError] for a record that is not an object) leaves [_load_data]. *)
Lemma load_data_not_caught (today : date) data (modules modules' : FactStore) e :
  caught e = false →
  load_modules other_formats data modules = (modules', Raise e) →
  _load_data other_formats today (Some (JsonText (Object data))) modules
  = Raise e.
Proof. intros He H. unfold _load_data. simpl. by rewrite H, He. Qed.

Lemma load_data_value_error (today : date) data (modules modules' : FactStore) :
  load_modules other_formats data modules = (modules', Raise ValueError) →
  _load_data other_formats today (Some (JsonText (Object data))) modules
  = Raise ValueError.
Proof. by apply load_data_not_caught. Qed.
End Fallback.

(** *** The migration order on concrete stores *)



(** C1 fails on the code: in the chain where [Z] depends on [Y] and [Y] on
    [X], all three tracked, the returned order is [Z], [Y], [X] wherever
    the interpreter allows two nested calls of [dfs] (the modules are
    visited as [X], [Y], [Z], and a visit goes no deeper than the call on a
    dependency seen before); each module comes before the module it
    depends on, not after it. *)
Theorem get_migration_order_chain (depth : nat) :
  2 ≤ depth →
  Dict.get "Z" Examples.chain_store
    = Some (ModuleInfo_new "Z" NOT_STARTED ["Y"] [] None None "")
  ∧ "Y" ∈ Dict.keys Examples.chain_store
  ∧ MigrationTracker.get_migration_order depth Examples.chain_store
    = Ok ["Z"; "Y"; "X"]
  ∧ precedes "Z" "Y" ["Z"; "Y"; "X"]
  ∧ ¬ precedes "Y" "Z" ["Z"; "Y"; "X"].
Proof.
  intros Hdepth.
  split_and!; [done | compute_done | | |].
  - destruct depth as [|[|rest]]; [lia..|]. by vm_compute.
  - exists 0, 1. split_and!; [done | done | lia].
  - intros (i & j & Hi & Hj & Hlt).
    destruct i as [|[|[|i]]], j as [|[|[|j]]]; simplify_eq/=; lia.
Qed.

Lemma get_migration_order_chain_witness :
  Dict.get "Z" Examples.chain_store
    = Some (ModuleInfo_new "Z" NOT_STARTED ["Y"] [] None None "")
  ∧ "Y" ∈ Dict.keys Examples.chain_store
  ∧ MigrationTracker.get_migration_order 1000 Examples.chain_store
    = Ok ["Z"; "Y"; "X"]
  ∧ precedes "Z" "Y" ["Z"; "Y"; "X"]
  ∧ ¬ precedes "Y" "Z" ["Z"; "Y"; "X"].
Proof.
  apply (get_migration_order_chain 1000). lia.
Defined.

(** *** Status updates on the default store *)

Lemma update_module_status_not_found_witness :
  MigrationTracker.update_module_status Examples.today "Ghost" COMPLETED None None
    Examples.default_store
  = (false, Examples.default_store).
Proof.
  apply (update_module_status_not_found Examples.today "Ghost" COMPLETED None None
           Examples.default_store).
  compute_done.
Defined.

Lemma update_module_status_completed_stamps_today_witness :
  ∃ modules' m',
    MigrationTracker.update_module_status Examples.today "CoreDTOs" COMPLETED None
      (Some "done") Examples.default_store = (true, modules')
    ∧ Dict.get "CoreDTOs" modules' = Some m'
    ∧ status m' = COMPLETED
    ∧ migration_date m' = Some Examples.today.
Proof.
  apply (update_module_status_completed_stamps_today Examples.today "CoreDTOs"
           (Some "done") Examples.default_store).
  compute_done.
Defined.

Lemma update_module_status_frame_witness :
  ∃ modules' m m',
    MigrationTracker.update_module_status Examples.today "UserDefaults" BLOCKED None
      None Examples.default_store = (true, modules')
    ∧ Dict.keys modules' = Dict.keys Examples.default_store
    ∧ (∀ other, other ≠ "UserDefaults" →
         Dict.get other modules' = Dict.get other Examples.default_store)
    ∧ Dict.get "UserDefaults" Examples.default_store = Some m
    ∧ Dict.get "UserDefaults" modules' = Some m'
    ∧ name m' = name m
    ∧ dependencies m' = dependencies m
    ∧ dependents m' = dependents m
    ∧ blocking_issues m' = blocking_issues m
    ∧ ((None : option string) = None → notes m' = notes m).
Proof.
  apply (update_module_status_frame Examples.today "UserDefaults" BLOCKED None None
           Examples.default_store).
  compute_done.
Defined.

(** *** The invariant of the stores the tracker builds *)

Section StoreInvariant.
Import MigrationTracker.
Implicit Types (modules : FactStore).

Lemma Forall_dict_set {V} (P : string * V → Prop) k v (d : list (string * V)) :
  Forall P d → P (k, v) → Forall P (Dict.set k v d).
Proof.
  intros Hd Hkv. induction d as [|[k' v'] d IH]; simpl.
  - by constructor.
  - apply Forall_cons in Hd as [Hh Ht].
    destruct (decide (k = k')); constructor; auto.
Qed.

Lemma add_module_ok n s deps dts d bl nt modules :
  store_ok modules →
  (∀ x, d = Some x → date_ok x = true) →
  store_ok (add_module n s deps dts d bl nt modules).
Proof.
  intros [Hwf Hok] Hd. unfold add_module. split.
  - by apply dict_set_wf.
  - apply Forall_dict_set; [done|]. split; [done|]. simpl.
    destruct d; [by apply Hd | done].
Qed.

Lemma initialize_default_modules_ok today modules :
  date_ok today = true → store_ok modules →
  store_ok (_initialize_default_modules today modules).
Proof.
  intros Ht Hok. unfold _initialize_default_modules.
  repeat (apply add_module_ok; [|by intros ? [= <-] || by intros ? [=]]).
  done.
Qed.

Lemma update_module_status_ok today n s d nt modules :
  date_ok today = true →
  (∀ x, d = Some x → date_ok x = true) →
  store_ok modules →
  store_ok (update_module_status today n s d nt modules).2.
Proof.
  intros Ht Hd [Hwf Hok]. destruct (Dict.get n modules) as [m|] eqn:Hm.
  - destruct (update_module_status_present today n s d nt modules m Hm)
      as (m' & -> & Hname & _ & _ & _ & _ & Hdate & _).
    pose proof (proj1 (Forall_forall _ _) Hok _ (dict_get_elem_of _ _ _ Hm))
      as [Hn Hmd].
    simpl in *. split; [by apply dict_set_wf|].
    apply Forall_dict_set; [done|]. split; simpl; [congruence|].
    rewrite Hdate. destruct d as [x|]; [by apply Hd|].
    by destruct (bool_decide (s = COMPLETED)).
  - by rewrite update_module_status_absent.
Qed.
End StoreInvariant.

Section LoadedStores.
Import MigrationTracker.
Variable other_formats : string → option date.

Lemma fromisoformat_ok (s : string) (d : date) :
  fromisoformat other_formats s = Ok d → date_ok d = true.
Proof.
  unfold fromisoformat. repeat case_match; try done; by intros [= <-].
Qed.

Lemma load_module_ok n md m :
  load_module other_formats n md = Ok m → module_ok (n, m).
Proof.
  unfold load_module, getitem.
  destruct (j_status md) as [v|]; [|done]. cbn [obind].
  destruct (status_of_value v) as [s|]; [|done]. cbn [obind].
  destruct (j_dependencies md) as [deps|]; [|done]. cbn [obind].
  destruct (j_dependents md) as [dts|]; [|done]. cbn [obind].
  destruct (j_migration_date md) as [[s'|]|]; cbn [obind].
  - destruct (decide (s' = "")); cbn [obind].
    + intros [= <-]. by split.
    + destruct (fromisoformat other_formats s') as [d|] eqn:Hd; [|done].
      cbn [obind].
      intros [= <-]. split; [done|]. simpl. by eapply fromisoformat_ok.
  - intros [= <-]. by split.
  - intros [= <-]. by split.
Qed.

Lemma load_record_ok n r m :
  load_record other_formats n r = Ok m → module_ok (n, m).
Proof. destruct r; [apply load_module_ok | done]. Qed.

Lemma load_modules_ok data (modules modules' : FactStore) r :
  store_ok modules → load_modules other_formats data modules = (modules', r) →
  store_ok modules'.
Proof.
  revert modules. induction data as [|[n md] data IH]; intros modules Hok; simpl.
  - by intros [= <- _].
  - destruct (load_record other_formats n md) as [m|] eqn:Hm;
      [|by intros [= <- _]].
    apply IH. destruct Hok as [Hwf Hall]. split.
    + by apply dict_set_wf.
    + apply Forall_dict_set; [done|]. by apply load_record_ok in Hm.
Qed.

(** Whatever the data file holds, a tracker that comes up holds a store
    with the invariant. *)
Lemma init_store_ok (today : date) file (modules : FactStore) :
  date_ok today = true → init other_formats today file = Ok modules →
  store_ok modules.
Proof.
  intros Ht. unfold init, _load_data.
  assert (Hnil : store_ok ([] : FactStore)) by (split; constructor).
  destruct file as [[| | | |[data|]]|]; simpl; try done.
  - intros [= <-]. by apply initialize_default_modules_ok.
  - destruct (load_modules other_formats data []) as [ms r] eqn:Hl.
    apply load_modules_ok in Hl; [|done].
    destruct r as [[]|e]; [by intros [= <-]|].
    destruct (caught e); [|done].
    intros [= <-]. by apply initialize_default_modules_ok.
  - intros [= <-]. by apply initialize_default_modules_ok.
Qed.
End LoadedStores.

(** *** Stores without dependency cycles *)

Lemma precedes_app_r (a b : string) (l k : list string) :
  precedes a b l → precedes a b (l ++ k).
Proof.
  intros (i & j & Hi & Hj & Hlt). exists i, j.
  split_and!; [by apply lookup_app_l_Some.. | done].
Qed.

Lemma precedes_snoc (a b : string) (l : list string) :
  a ∈ l → precedes a b (l ++ [b]).
Proof.
  intros [i Hi]%list_elem_of_lookup. exists i, (length l).
  split_and!.
  - by apply lookup_app_l_Some.
  - by rewrite list_lookup_middle.
  - by eapply lookup_lt_Some.
Qed.

Lemma precedes_reverse (a b : string) (l : list string) :
  precedes a b l → precedes b a (reverse l).
Proof.
  intros (i & j & Hi & Hj & Hlt).
  pose proof (lookup_lt_Some _ _ _ Hi). pose proof (lookup_lt_Some _ _ _ Hj).
  exists (length l - S j), (length l - S i). split_and!.
  - apply reverse_lookup_Some. split; [|lia].
    by replace (length l - S (length l - S j)) with j by lia.
  - apply reverse_lookup_Some. split; [|lia].
    by replace (length l - S (length l - S i)) with i by lia.
  - lia.
Qed.

Section Acyclic.
Import MigrationTracker.
Variable modules : FactStore.
Hypothesis modules_wf : Dict.wf modules.
Hypothesis modules_acyclic : acyclic modules.

(** [dfs] keeps the post-order invariant when the modules on the stack
    all lead to the module it is called on. *)
Lemma dfs_post_order depth n st (stack : list string) :
  n ∈ tracked modules →
  size (tracked modules ∖ visited st) < depth →
  (∀ s, s ∈ stack → rtc (depends_on modules) s n) →
  post_order modules stack st →
  ∃ st', dfs depth modules n st = Ok st' ∧ extends modules st st'
         ∧ n ∈ visited st' ∧ post_order modules stack st'.
Proof.
  revert n st stack.
  induction depth as [|depth IH]; intros n st stack Hn Hdepth Hstack Hpo; [lia|].
  simpl. destruct (decide (n ∈ visited st)) as [Hv|Hv].
  { exists st. split_and!; [done | apply extends_refl | done | done]. }
  destruct (proj2 (dict_get_is_Some n modules)) as [m Hm].
  { by apply elem_of_tracked. }
  rewrite Hm. simpl.
  set (st1 := mkDfs ({[n]} ∪ visited st) (result st)).
  assert (Hlt : size (tracked modules ∖ visited st1)
                < size (tracked modules ∖ visited st)).
  { apply subset_size. subst st1. simpl. set_solver. }
  destruct Hpo as [Hfin Hfirst].
  destruct (for_each_extends modules
              (λ dep st, if Dict.mem dep modules then dfs depth modules dep st
                         else Ok st)
              (post_order modules (n :: stack))
              (λ dep st, Dict.mem dep modules = true → dep ∈ visited st)
              depth (dependencies m) st1)
    as (st2 & Hloop & Hext & [Hfin2 Hfirst2] & Hdeps).
  - intros dep st0 st' Hq (_ & _ & _ & _ & Hsub & _) Hmem. set_solver.
  - intros dep st0 Hdep Hpo0 Hf0. destruct (Dict.mem dep modules) eqn:Hmem.
    + assert (Hk : dep ∈ Dict.keys modules) by by apply dict_mem_keys.
      destruct (IH dep st0 (n :: stack)) as (st' & ? & ? & ? & ?);
        [by apply elem_of_tracked | done | | done |].
      * assert (depends_on modules n dep) by by exists m.
        intros s [->|Hs]%elem_of_cons; [by apply rtc_once|].
        eapply rtc_r; [by apply Hstack | done].
      * exists st'. by split_and!.
    + exists st0. split_and!; [done | apply extends_refl | done | done].
  - split; [|done]. subst st1. simpl. intros x Hx.
    destruct (decide (x = n)) as [->|Hne]; [right; left|].
    destruct (Hfin x) as [?|?]; [set_solver | by left | by right; right].
  - lia.
  - rewrite Hloop. simpl. eexists. split; [reflexivity|].
    destruct Hext as (new & Hr & Hnd & Hin & Hsub & Htr).
    subst st1. simpl in *. split_and!.
    + exists (new ++ [n]). simpl. split_and!.
      * by rewrite Hr, <- app_assoc.
      * apply NoDup_app. split_and!; [done | | apply NoDup_singleton].
        intros x Hx%Hin ->%list_elem_of_singleton. set_solver.
      * intros x. rewrite elem_of_app, Hin, list_elem_of_singleton.
        destruct (decide (x = n)) as [->|Hne]; set_solver.
      * set_solver.
      * set_solver.
    + set_solver.
    + split; simpl.
      * intros x Hx. rewrite elem_of_app, list_elem_of_singleton.
        destruct (Hfin2 x Hx) as [?|[->|?]%elem_of_cons]; auto.
      * intros x d [Hx| ->%list_elem_of_singleton]%elem_of_app Hxd.
        { by apply precedes_app_r, Hfirst2. }
        pose proof Hxd as (m' & Hm' & Hd & Hk). simplify_eq.
        assert (Hdv : d ∈ visited st2).
        { apply Hdeps; [done | by apply dict_mem_keys]. }
        destruct (Hfin2 d Hdv) as [?|Hs]; [by apply precedes_snoc|].
        exfalso. apply (modules_acyclic n).
        eapply tc_rtc_r; [by apply tc_once|].
        apply elem_of_cons in Hs as [->|Hs]; [done | by apply Hstack].
Qed.

Lemma traversal_post_order depth :
  length modules < depth →
  ∃ r, traversal depth modules = Ok r
       ∧ dependencies_first modules r
       ∧ ∀ x, x ∈ r ↔ x ∈ Dict.keys modules.
Proof.
  intros Hdepth.
  destruct (traversal_invariant modules modules_wf depth (post_order modules []))
    as (st & Hr & [_ Hfirst] & _ & Hin); [| |done|by exists (result st)].
  - intros n st Hn Hpo Hf. apply dfs_post_order; try done.
    by intros s ?%elem_of_nil.
  - split; simpl; [set_solver | by intros x d ?%elem_of_nil].
Qed.

(** On a store without dependency cycles the returned order lists every
    module before each tracked module it depends on: dependents first,
    dependencies last. *)
Lemma get_migration_order_dependents_first depth :
  length modules < depth →
  ∃ order, get_migration_order depth modules = Ok order
           ∧ ∀ M D, depends_on modules M D → precedes M D order.
Proof.
  intros Hdepth.
  destruct (traversal_post_order depth) as (r & Hr & Hfirst & Hin); [lia|].
  unfold get_migration_order. rewrite Hr. simpl.
  eexists. split; [reflexivity|]. intros M D HMD.
  apply precedes_reverse, Hfirst; [|done].
  destruct HMD as (m & Hm & _). apply Hin, dict_get_is_Some. by exists m.
Qed.
End Acyclic.

(** * Further properties of the tracker *)

(** ** Adding modules *)

Lemma dict_set_set {V} k (v w : V) (d : list (string * V)) :
  Dict.set k w (Dict.set k v d) = Dict.set k w d.
Proof.
  induction d as [|[k' v'] d IH]; simpl.
  - by rewrite decide_True.
  - destruct (decide (k = k')) as [->|Hne]; simpl.
    + by rewrite decide_True.
    + rewrite decide_False by done. by rewrite IH.
Qed.

(** X1. [add_module] is an upsert: afterwards the name is bound to a
    record holding exactly the arguments (a [blocking_issues] of [None]
    having become the empty list), whatever was bound to it before, and
    every other name is bound as before. *)
Theorem add_module_lookup (n : string) (s : MigrationStatus)
    (deps dts : list string) (d : option date) (bl : option (list string))
    (nt : string) (modules : FactStore) :
  Dict.get n (MigrationTracker.add_module n s deps dts d bl nt modules)
    = Some (mkModuleInfo n s deps dts d (default [] bl) nt)
  ∧ ∀ other, other ≠ n →
      Dict.get other (MigrationTracker.add_module n s deps dts d bl nt modules)
      = Dict.get other modules.
Proof.
  unfold MigrationTracker.add_module. split.
  - rewrite dict_get_set_eq. by destruct bl.
  - intros other Hne. by apply dict_get_set_ne.
Qed.

(** X2. [add_module] and the iteration order of the store: a name that is
    already tracked keeps its place, a new name goes to the end; adding the
    same name twice leaves one entry, the second. *)
Theorem add_module_order (n : string) (s s' : MigrationStatus)
    (deps dts deps' dts' : list string) (d d' : option date)
    (bl bl' : option (list string)) (nt nt' : string) (modules : FactStore) :
  (n ∈ Dict.keys modules →
     Dict.keys (MigrationTracker.add_module n s deps dts d bl nt modules)
     = Dict.keys modules)
  ∧ (n ∉ Dict.keys modules →
     MigrationTracker.add_module n s deps dts d bl nt modules
     = modules ++ [(n, mkModuleInfo n s deps dts d (default [] bl) nt)])
  ∧ MigrationTracker.add_module n s' deps' dts' d' bl' nt'
      (MigrationTracker.add_module n s deps dts d bl nt modules)
    = MigrationTracker.add_module n s' deps' dts' d' bl' nt' modules.
Proof.
  unfold MigrationTracker.add_module. split_and!.
  - apply dict_keys_set_present.
  - intros Hn. rewrite dict_set_fresh by done. by destruct bl.
  - apply dict_set_set.
Qed.

Lemma add_module_order_witness :
  Dict.keys (MigrationTracker.add_module "CoreDTOs" BLOCKED [] [] None None ""
               Examples.default_store)
  = Dict.keys Examples.default_store.
Proof.
  apply (add_module_order "CoreDTOs" BLOCKED BLOCKED [] [] [] [] None None
           None None "" "" Examples.default_store).
  compute_done.
Defined.

(** ** More on status updates *)


(** X4. The migration date after a successful [update_module_status]: an
    explicit date is stored whatever the status; without one, [COMPLETED]
    stamps today's date and any other status leaves the date as it was.  So a
    date is never cleared: a module that was completed and is moved back to
    another status keeps its old date. *)
Theorem update_module_status_date (today : date) (n : string)
    (s : MigrationStatus) (d : option date) (nt : option string)
    (modules : FactStore) (m : ModuleInfo) :
  Dict.get n modules = Some m →
  ∃ m',
    Dict.get n (MigrationTracker.update_module_status today n s d nt modules).2
      = Some m'
    ∧ (∀ x, d = Some x → migration_date m' = Some x)
    ∧ (d = None → s = COMPLETED → migration_date m' = Some today)
    ∧ (d = None → s ≠ COMPLETED → migration_date m' = migration_date m)
    ∧ (is_Some (migration_date m) → is_Some (migration_date m')).
Proof.
  intros Hm.
  destruct (update_module_status_present today n s d nt modules m Hm)
    as (m' & -> & _ & _ & _ & _ & _ & Hd & _).
  exists m'. simpl. rewrite dict_get_set_eq. split; [done|]. rewrite Hd.
  split_and!.
  - by intros x ->.
  - intros -> ->. by rewrite bool_decide_eq_true_2.
  - intros -> Hs. by rewrite bool_decide_eq_false_2.
  - intros Hsome. destruct d; [done|]. by destruct (bool_decide (s = COMPLETED)).
Qed.

Lemma update_module_status_date_witness :
  ∃ m',
    Dict.get "UmbraErrors"
      (MigrationTracker.update_module_status (Date 2026 1 2) "UmbraErrors"
         IN_PROGRESS None None Examples.default_store).2 = Some m'
    ∧ (∀ x, (None : option date) = Some x → migration_date m' = Some x)
    ∧ ((None : option date) = None → IN_PROGRESS = COMPLETED →
       migration_date m' = Some (Date 2026 1 2))
    ∧ ((None : option date) = None → IN_PROGRESS ≠ COMPLETED →
       migration_date m' = Some Examples.today)
    ∧ (is_Some (Some Examples.today) → is_Some (migration_date m')).
Proof.
  apply (update_module_status_date (Date 2026 1 2) "UmbraErrors" IN_PROGRESS None
           None Examples.default_store
           (mkModuleInfo "UmbraErrors" COMPLETED []
              ["CoreDTOs"; "UserDefaults"; "SecurityInterfaces"]
              (Some Examples.today) []
              "Successfully migrated to Alpha Dot Five architecture.")).
  reflexivity.
Defined.

(** ** More on loading *)

Section LoadMore.
Import MigrationTracker.
Variable other_formats : string → option date.

Lemma load_modules_app (a b : list (string * json_record)) (modules : FactStore) :
  load_modules other_formats (a ++ b) modules
  = match load_modules other_formats a modules with
    | (modules', Ok _) => load_modules other_formats b modules'
    | r => r
    end.
Proof.
  revert modules. induction a as [|[n md] a IH]; intros modules; simpl; [done|].
  by destruct (load_record other_formats n md).
Qed.

(** Reading a record raises [KeyError] for [k] exactly when the record
    lacks [k] in the sense of [lacks_required]. *)
Lemma load_module_key_error n md k :
  load_module other_formats n md = Raise (KeyError k) ↔ lacks_required md k.
Proof.
  unfold load_module, lacks_required, getitem.
  destruct (j_status md) as [v|]; cbn [obind].
  2:{ split; [intros [= <-]; by left|].
      intros [[_ ->]|(? & ? & ? & _)]; done. }
  destruct (status_of_value v) as [s|e] eqn:Hs; cbn [obind].
  2:{ split.
      - intros [= ->]. unfold status_of_value in Hs. by repeat case_decide.
      - intros [[? _]|(v' & s' & [= <-] & Hs' & _)]; [done | congruence]. }
  destruct (j_dependencies md) as [deps|]; cbn [obind].
  2:{ split.
      - intros [= <-]. right. exists v, s. split_and!; [done..|]. by left.
      - intros [[? _]|(_ & _ & _ & _ & [[_ ->]|([? ?] & _)])]; done. }
  destruct (j_dependents md) as [dts|]; cbn [obind].
  2:{ split.
      - intros [= <-]. right. exists v, s. split_and!; [done..|]. right.
        split_and!; [by eexists | done..].
      - intros [[? _]|(_ & _ & _ & _ & [[? _]|(_ & _ & ->)])]; done. }
  split.
  - destruct (j_migration_date md) as [[s'|]|]; cbn [obind]; [|done..].
    destruct (decide (s' = "")); cbn [obind]; [done|].
    unfold fromisoformat. by repeat case_match.
  - intros [[? _]|(_ & _ & _ & _ & [[? _]|(_ & ? & _)])]; done.
Qed.

Lemma initialize_default_modules_get (today : date) (modules : FactStore) x :
  x ∉ default_names →
  Dict.get x (_initialize_default_modules today modules) = Dict.get x modules.
Proof.
  intros Hx. unfold _initialize_default_modules, add_module. cbv zeta.
  repeat (rewrite dict_get_set_ne;
          [|intros Heq; apply Hx; rewrite <- Heq; unfold default_names;
            set_solver]).
  done.
Qed.

Lemma dict_keys_set_subseteq {V} k (v : V) (d : list (string * V)) x :
  x ∈ Dict.keys d ∨ x = k → x ∈ Dict.keys (Dict.set k v d).
Proof.
  rewrite <- !dict_get_is_Some. intros [Hx| ->].
  - destruct (decide (k = x)) as [->|Hne].
    + by rewrite dict_get_set_eq.
    + by rewrite dict_get_set_ne.
  - by rewrite dict_get_set_eq.
Qed.

Lemma initialize_default_modules_keys (today : date) (modules : FactStore) x :
  x ∈ default_names → x ∈ Dict.keys (_initialize_default_modules today modules).
Proof.
  unfold _initialize_default_modules, add_module, default_names.
  intros Hx. repeat (apply elem_of_cons in Hx as [->|Hx]);
    [repeat (first [by apply dict_keys_set_subseteq; right
                   |apply dict_keys_set_subseteq; left])..|].
  by apply elem_of_nil in Hx.
Qed.
End LoadMore.




(** X5. When the records before it load, a record that lacks a required
    key (no [status]; or a [status] that is one of the five values and no
    [dependencies]; or these two and no [dependents]) stops the load with a
    caught [KeyError]: the default modules are then installed on top of the
    records loaded before the bad one, and the records after it are never
    read.  The tracker holds every default module, and under any other name
    what the records before the bad one put there. *)
Theorem load_data_partial (other_formats : string → option date) (today : date)
    (good rest : list (string * MigrationTracker.json_record))
    (n : string) (md : MigrationTracker.module_data) (k : string)
    (store : FactStore) :
  MigrationTracker.load_modules other_formats good [] = (store, Ok ()) →
  lacks_required md k →
  ∃ modules,
    MigrationTracker.init other_formats today
      (Some (MigrationTracker.JsonText
               (MigrationTracker.Object
                  (good ++ (n, MigrationTracker.RecordObject md) :: rest))))
    = Ok modules
    ∧ modules = MigrationTracker._initialize_default_modules today store
    ∧ (∀ x, x ∈ default_names → x ∈ Dict.keys modules)
    ∧ (∀ x, x ∉ default_names → Dict.get x modules = Dict.get x store).
Proof.
  intros Hgood Hbad. eexists. split_and!; [|reflexivity|..].
  - apply (load_module_key_error other_formats n) in Hbad.
    unfold MigrationTracker.init, MigrationTracker._load_data. simpl.
    rewrite load_modules_app, Hgood. simpl. by rewrite Hbad.
  - apply initialize_default_modules_keys.
  - apply initialize_default_modules_get.
Qed.

Lemma load_data_partial_witness :
  ∃ modules,
    MigrationTracker.init Examples.strict_formats Examples.today
      (Some (MigrationTracker.JsonText
               (MigrationTracker.Object
                  (Examples.good_records
                   ++ ("Broken",
                       MigrationTracker.RecordObject
                         Examples.record_without_status)
                      :: [("Later",
                           MigrationTracker.RecordObject
                             (Examples.record_with_status "Completed"))]))))
    = Ok modules
    ∧ modules = MigrationTracker._initialize_default_modules Examples.today
                  [Examples.plain "Legacy" [] ["CoreDTOs"]]
    ∧ (∀ x, x ∈ default_names → x ∈ Dict.keys modules)
    ∧ (∀ x, x ∉ default_names →
         Dict.get x modules = Dict.get x [Examples.plain "Legacy" [] ["CoreDTOs"]]).
Proof.
  apply (load_data_partial Examples.strict_formats Examples.today
           Examples.good_records
           [("Later",
             MigrationTracker.RecordObject
               (Examples.record_with_status "Completed"))]
           "Broken" Examples.record_without_status "status"
           [Examples.plain "Legacy" [] ["CoreDTOs"]]).
  - reflexivity.
  - left. split; reflexivity.
Defined.

(** X6. When the records before it load, a record whose [status] is none
    of the five status values makes the load raise [ValueError], which
    [_load_data] does not catch: the tracker does not come up, and no
    default module is installed. *)
Theorem load_data_unknown_status (other_formats : string → option date)
    (today : date)
    (good rest : list (string * MigrationTracker.json_record))
    (n : string) (md : MigrationTracker.module_data) (v : string)
    (store : FactStore) :
  MigrationTracker.load_modules other_formats good [] = (store, Ok ()) →
  MigrationTracker.j_status md = Some v →
  v ∉ status_value <$> Report.all_statuses →
  MigrationTracker.init other_formats today
    (Some (MigrationTracker.JsonText
             (MigrationTracker.Object
                (good ++ (n, MigrationTracker.RecordObject md) :: rest))))
  = Raise ValueError.
Proof.
  intros Hgood Hv Hnot.
  assert (Hbad : MigrationTracker.load_module other_formats n md
                 = Raise ValueError).
  { unfold MigrationTracker.load_module. rewrite Hv.
    cbn [MigrationTracker.getitem obind].
    unfold status_of_value.
    repeat (rewrite decide_False;
            [|intros ->; apply Hnot; unfold Report.all_statuses; set_solver]).
    done. }
  unfold MigrationTracker.init, MigrationTracker._load_data. simpl.
  rewrite load_modules_app, Hgood. simpl. by rewrite Hbad.
Qed.

Lemma load_data_unknown_status_witness :
  MigrationTracker.init Examples.strict_formats Examples.today
    (Some (MigrationTracker.JsonText
             (MigrationTracker.Object
                (Examples.good_records
                 ++ ("Odd",
                     MigrationTracker.RecordObject
                       (Examples.record_with_status "Done"))
                    :: []))))
  = Raise ValueError.
Proof.
  apply (load_data_unknown_status Examples.strict_formats Examples.today
           Examples.good_records []
           "Odd" (Examples.record_with_status "Done") "Done"
           [Examples.plain "Legacy" [] ["CoreDTOs"]]).
  - reflexivity.
  - reflexivity.
  - compute_done.
Defined.

Section LoadInOrder.
Import MigrationTracker.
Variable other_formats : string → option date.

Lemma load_modules_all (data : list (string * json_record)) (acc : FactStore) :
  NoDup (Dict.keys acc ++ Dict.keys data) →
  Forall (λ p, ∃ m, load_record other_formats p.1 p.2 = Ok m) data →
  ∃ loaded,
    load_modules other_formats data acc = (acc ++ loaded, Ok ())
    ∧ Forall2 (λ p q, q.1 = p.1 ∧ load_record other_formats p.1 p.2 = Ok q.2)
        data loaded.
Proof.
  revert acc. induction data as [|[n md] data IH]; intros acc Hnd Hall.
  - exists []. simpl. by rewrite app_nil_r.
  - apply Forall_cons in Hall as [[m Hm] Hall]. simpl in Hm.
    unfold Dict.keys in *. simpl in Hnd.
    assert (n ∉ acc.*1).
    { apply NoDup_app in Hnd as (_ & Hdisj & _).
      intros Hk. apply (Hdisj n Hk). left. }
    destruct (IH (acc ++ [(n, m)])) as (loaded & Hl & Hf2); [|done|].
    { rewrite fmap_app. simpl. by rewrite <- app_assoc. }
    exists ((n, m) :: loaded). simpl. rewrite Hm, dict_set_fresh by done.
    rewrite Hl, <- app_assoc. split; [done|]. by constructor.
Qed.
End LoadInOrder.

(** X7. A snapshot in which every record can be loaded gives a tracker
    with exactly the names of the snapshot, in the order of the file; each
    name holds what its record loads to, and no default module is added. *)
Theorem load_data_in_order (other_formats : string → option date)
    (today : date)
    (data : list (string * MigrationTracker.json_record)) :
  Dict.wf data →
  Forall (λ p, ∃ m, MigrationTracker.load_record other_formats p.1 p.2 = Ok m)
    data →
  ∃ store,
    MigrationTracker.init other_formats today
      (Some (MigrationTracker.JsonText (MigrationTracker.Object data)))
    = Ok store
    ∧ Dict.keys store = Dict.keys data
    ∧ ∀ n md, (n, md) ∈ data →
        ∃ m, MigrationTracker.load_record other_formats n md = Ok m
             ∧ Dict.get n store = Some m.
Proof.
  intros Hwf Hall.
  destruct (load_modules_all other_formats data [] Hwf Hall)
    as (loaded & Hl & Hf2).
  simpl in Hl. exists loaded.
  assert (Hkeys : Dict.keys loaded = Dict.keys data).
  { unfold Dict.keys. clear Hl Hwf Hall.
    induction Hf2 as [|p q ?? [Hk _]]; simpl; [done|]. by f_equal. }
  split_and!.
  - unfold MigrationTracker.init, MigrationTracker._load_data. simpl. by rewrite Hl.
  - done.
  - intros n md Hin.
    apply list_elem_of_lookup in Hin as [i Hi].
    destruct (Forall2_lookup_l _ _ _ _ _ Hf2 Hi) as ([n' m] & Hj & Hk & Hm).
    simpl in *. subst n'. exists m. split; [done|].
    apply dict_elem_of_get.
    + unfold Dict.wf. by rewrite Hkeys.
    + by eapply list_elem_of_lookup_2.
Qed.

Lemma load_data_in_order_witness :
  ∃ store,
    MigrationTracker.init Examples.strict_formats Examples.today
      (Some (MigrationTracker.JsonText
               (MigrationTracker.Object Examples.good_records))) = Ok store
    ∧ Dict.keys store = Dict.keys Examples.good_records
    ∧ ∀ n md, (n, md) ∈ Examples.good_records →
        ∃ m, MigrationTracker.load_record Examples.strict_formats n md = Ok m
             ∧ Dict.get n store = Some m.
Proof.
  apply (load_data_in_order Examples.strict_formats Examples.today
           Examples.good_records).
  - unfold Dict.wf. compute_done.
  - repeat constructor. by eexists.
Defined.

(** X8. Whatever data file the tracker started from, what it then saves
    loads back, on any later day and under any later version of the
    interpreter, to the store it held: the defaults written after a missing
    or unreadable file and the records of a loaded file alike survive a save
    and a restart. *)
Theorem saved_state_reloads (other_formats later_formats : string → option date)
    (today later : date)
    (file : option MigrationTracker.file_content) (store : FactStore) :
  date_ok today = true →
  MigrationTracker.init other_formats today file = Ok store →
  MigrationTracker.init later_formats later
    (Some (MigrationTracker.save_data store)) = Ok store.
Proof.
  intros Ht Hinit.
  destruct (init_store_ok other_formats today file store Ht Hinit) as [Hwf Hok].
  unfold MigrationTracker.init, MigrationTracker._load_data.
  rewrite save_data_wf by done. simpl.
  by rewrite (load_modules_saved later_formats store []).
Qed.

Lemma saved_state_reloads_witness :
  MigrationTracker.init Examples.basic_format_of_today (Date 2030 12 31)
    (Some (MigrationTracker.save_data Examples.default_store))
  = Ok Examples.default_store.
Proof.
  apply (saved_state_reloads Examples.strict_formats
           Examples.basic_format_of_today Examples.today (Date 2030 12 31)
           (Some MigrationTracker.Garbage) Examples.default_store);
    reflexivity.
Defined.

(** X9. The invariant of the tracker's store: distinct names, every record
    filed under its own [name], every migration date a calendar date.  It
    holds for whatever [__init__] builds, from any data file, and
    [add_module] and [update_module_status] keep it. *)
Theorem store_invariant (today : date) :
  date_ok today = true →
  (∀ other_formats file modules,
     MigrationTracker.init other_formats today file = Ok modules →
     store_ok modules)
  ∧ (∀ modules n s deps dts d bl nt,
       store_ok modules → (∀ x, d = Some x → date_ok x = true) →
       store_ok (MigrationTracker.add_module n s deps dts d bl nt modules))
  ∧ (∀ modules n s d nt,
       store_ok modules → (∀ x, d = Some x → date_ok x = true) →
       store_ok (MigrationTracker.update_module_status today n s d nt modules).2).
Proof.
  intros Ht. split_and!.
  - intros other_formats file modules. by apply init_store_ok.
  - intros. by apply add_module_ok.
  - intros. by apply update_module_status_ok.
Qed.

Lemma store_invariant_witness :
  store_ok Examples.default_store
  ∧ store_ok
      (MigrationTracker.update_module_status Examples.today "CoreDTOs" COMPLETED
         None None Examples.default_store).2.
Proof.
  destruct (store_invariant Examples.today eq_refl) as (Hinit & _ & Hupd).
  assert (Hok : store_ok Examples.default_store).
  { apply (Hinit Examples.strict_formats None). reflexivity. }
  split; [exact Hok|]. apply Hupd; [exact Hok | by intros x [=]].
Defined.

(** ** More on the migration order *)

Lemma for_each_ext {A St} (f g : A → St → outcome St) (l : list A) (st : St) :
  (∀ x st, x ∈ l → f x st = g x st) → for_each f l st = for_each g l st.
Proof.
  revert st. induction l as [|x l IH]; intros st Hfg; [done|].
  simpl. rewrite Hfg by left. destruct (g x st); simpl; [|done..].
  apply IH. intros y st' Hy. apply Hfg. by right.
Qed.

Lemma for_each_map {A B St} (g : A → B) (f : B → St → outcome St)
    (l : list A) (st : St) :
  for_each f (map g l) st = for_each (λ x, f (g x)) l st.
Proof.
  revert st. induction l as [|x l IH]; intros st; [done|].
  simpl. destruct (f (g x) st); simpl; [|done..]. apply IH.
Qed.

Lemma for_each_tracked {St} (modules : FactStore)
    (f : string → St → outcome St) (deps : list string) (st : St) :
  for_each (λ dep st, if Dict.mem dep modules then f dep st else Ok st) deps st
  = for_each f (filter (λ d, d ∈ Dict.keys modules) deps) st.
Proof.
  revert st. induction deps as [|d deps IH]; intros st; [done|].
  rewrite filter_cons. simpl. destruct (Dict.mem d modules) eqn:Hmem.
  - rewrite decide_True by by apply dict_mem_keys. simpl.
    destruct (f d st); simpl; [|done..]. apply IH.
  - rewrite decide_False; [simpl; apply IH|].
    intros Hin%dict_mem_keys. congruence.
Qed.

Lemma dict_get_map {V W} (f : V → W) k (d : list (string * V)) :
  Dict.get k (map (λ '(n, v), (n, f v)) d) = f <$> Dict.get k d.
Proof.
  induction d as [|[n v] d IH]; simpl; [done|]. by destruct (decide (k = n)).
Qed.

Lemma dict_keys_map {V W} (f : V → W) (d : list (string * V)) :
  (map (λ '(n, v), (n, f v)) d).*1 = d.*1.
Proof. induction d as [|[n v] d IH]; simpl; [done|]. by f_equal. Qed.

Section OrderView.
Import MigrationTracker.
Variables a b : FactStore.
Hypothesis same_view : order_view a = order_view b.

Lemma order_view_keys : Dict.keys a = Dict.keys b.
Proof.
  assert (H : ∀ ms : FactStore, Dict.keys ms = (order_view ms).*1).
  { intros ms. unfold Dict.keys, order_view. symmetry. apply dict_keys_map. }
  by rewrite !H, same_view.
Qed.

Lemma order_view_mem x : Dict.mem x a = Dict.mem x b.
Proof.
  pose proof (dict_mem_keys x a) as Ha. pose proof (dict_mem_keys x b) as Hb.
  rewrite order_view_keys in Ha.
  destruct (Dict.mem x a), (Dict.mem x b); try done.
  - symmetry. apply Hb, Ha. done.
  - apply Ha, Hb. done.
Qed.

Lemma order_view_get n :
  match Dict.get n a, Dict.get n b with
  | Some ma, Some mb =>
      filter (λ d, d ∈ Dict.keys a) (dependencies ma)
      = filter (λ d, d ∈ Dict.keys b) (dependencies mb)
  | None, None => True
  | _, _ => False
  end.
Proof.
  assert (H : ∀ ms : FactStore,
             Dict.get n (order_view ms)
             = (λ m, (filter (λ d, d ∈ Dict.keys ms) (dependencies m),
                      bool_decide (dependents m = []))) <$> Dict.get n ms).
  { intros ms. unfold order_view. apply dict_get_map. }
  pose proof (H a) as Ha. pose proof (H b) as Hb. rewrite same_view in Ha.
  rewrite Ha in Hb.
  destruct (Dict.get n a), (Dict.get n b); simpl in Hb; by simplify_eq.
Qed.

Lemma dfs_order_view depth n st : dfs depth a n st = dfs depth b n st.
Proof.
  revert n st. induction depth as [|depth IH]; intros n st; [done|].
  simpl. destruct (decide (n ∈ visited st)); [done|].
  pose proof (order_view_get n) as Hget.
  destruct (Dict.get n a) as [ma|], (Dict.get n b) as [mb|]; try done.
  simpl. rewrite !for_each_tracked, Hget.
  by rewrite (for_each_ext (dfs depth a) (dfs depth b)).
Qed.

Lemma traversal_order_view depth : traversal depth a = traversal depth b.
Proof.
  assert (H : ∀ (ms : FactStore) st,
             for_each
               (λ '(name, module) st,
                  if bool_decide (dependents module = [])
                  then dfs depth ms name st else Ok st) ms st
             = for_each
                 (λ '(name, (_, root)) st,
                    if root : bool then dfs depth ms name st else Ok st)
                 (order_view ms) st).
  { intros ms st. unfold order_view. rewrite for_each_map.
    apply for_each_ext. by intros [n m] st' _. }
  unfold traversal. rewrite !H, same_view, order_view_keys.
  rewrite (for_each_ext
             (λ '(name, (_, root)) st,
                if root : bool then dfs depth a name st else Ok st)
             (λ '(name, (_, root)) st,
                if root : bool then dfs depth b name st else Ok st)).
  2:{ intros [n [deps [|]]] st _; [apply dfs_order_view | done]. }
  destruct (for_each _ (order_view b) _) as [st1|]; simpl; [|done].
  rewrite (for_each_ext (λ name st, dfs depth a name st)
             (λ name st, dfs depth b name st)); [done|].
  intros. apply dfs_order_view.
Qed.
End OrderView.

(** Stores with the same view get the same order. *)
Lemma same_view_same_order depth (a b : FactStore) :
  order_view a = order_view b →
  MigrationTracker.get_migration_order depth a
  = MigrationTracker.get_migration_order depth b.
Proof.
  intros Hview. unfold MigrationTracker.get_migration_order.
  by rewrite (traversal_order_view a b Hview).
Qed.

(** X10. [get_migration_order] reads three things only: the names in
    insertion order, for each module its dependencies that are tracked, and
    whether its [dependents] list is empty.  Two stores that agree on these
    get the same order; status, dates, notes, blocking issues, untracked
    dependency names and the entries of non-empty [dependents] lists do not
    matter.  This holds at every recursion depth the interpreter may have
    left, also where the call ends in [RecursionError]. *)
Theorem get_migration_order_reads (depth : nat) (a b : FactStore) :
  order_view a = order_view b →
  MigrationTracker.get_migration_order depth a
  = MigrationTracker.get_migration_order depth b.
Proof. intros Hview. by apply same_view_same_order. Qed.

Lemma get_migration_order_reads_witness :
  MigrationTracker.get_migration_order 1000 Examples.cyclic_store
  = MigrationTracker.get_migration_order 1000 Examples.cyclic_store_variant.
Proof.
  apply (get_migration_order_reads 1000 Examples.cyclic_store
           Examples.cyclic_store_variant).
  by vm_compute.
Defined.

(** X11. On a store without dependency cycles that has fewer modules than
    the interpreter still allows nested calls of [dfs], an order is
    returned, and it lists every module before each tracked module it
    depends on; read backwards, the returned list is a valid build order,
    every tracked dependency of a module coming before the module. *)
Theorem get_migration_order_acyclic (depth : nat) (modules : FactStore) :
  Dict.wf modules →
  acyclic modules →
  length modules < depth →
  ∃ order,
    MigrationTracker.get_migration_order depth modules = Ok order
    ∧ (∀ M D, depends_on modules M D → precedes M D order)
    ∧ dependencies_first modules (reverse order).
Proof.
  intros Hwf Hacyc Hdepth.
  destruct (traversal_post_order modules Hwf Hacyc depth)
    as (r & Hr & Hfirst & Hin); [lia|].
  unfold MigrationTracker.get_migration_order. rewrite Hr. simpl.
  eexists. split; [reflexivity|]. split.
  - intros M D HMD. apply precedes_reverse, Hfirst; [|done].
    destruct HMD as (m & Hm & _). apply Hin, dict_get_is_Some. by exists m.
  - by rewrite reverse_involutive.
Qed.

(** A store is acyclic when some rank decreases along every dependency. *)
Lemma acyclic_by_rank (modules : FactStore) (rank : string → nat) :
  (∀ a b, depends_on modules a b → rank b < rank a) → acyclic modules.
Proof.
  intros Hrank a Hcycle.
  assert (H : ∀ x y, tc (depends_on modules) x y → rank y < rank x).
  { intros x y Hxy. induction Hxy as [x y Hxy|x y z Hxy _ IH].
    - by apply Hrank.
    - apply Hrank in Hxy. lia. }
  apply H in Hcycle. lia.
Qed.

Lemma chain_store_acyclic : acyclic Examples.chain_store.
Proof.
  apply (acyclic_by_rank _ (λ n, if decide (n = "Z") then 2
                                 else if decide (n = "Y") then 1 else 0)).
  intros a b (m & Hm & Hb & _). unfold Examples.chain_store in Hm. simpl in Hm.
  repeat case_decide; simplify_eq/=; set_solver.
Qed.

Lemma get_migration_order_acyclic_witness :
  ∃ order,
    MigrationTracker.get_migration_order 1000 Examples.chain_store = Ok order
    ∧ (∀ M D, depends_on Examples.chain_store M D → precedes M D order)
    ∧ dependencies_first Examples.chain_store (reverse order).
Proof.
  apply (get_migration_order_acyclic 1000 Examples.chain_store).
  - unfold Dict.wf. compute_done.
  - exact chain_store_acyclic.
  - simpl. lia.
Defined.

(** ** Reports *)

Global Instance item_le_trans : Transitive item_le.
Proof. intros p q r. unfold item_le. apply transitivity. Qed.

Global Instance item_le_total : Total item_le.
Proof. intros p q. unfold item_le. apply total, _. Qed.

Lemma sorted_items_Permutation (modules : FactStore) :
  sorted_items modules ≡ₚ modules.
Proof. apply merge_sort_Permutation. Qed.

Lemma sorted_items_sorted (modules : FactStore) :
  StronglySorted item_le (sorted_items modules).
Proof. apply StronglySorted_merge_sort; apply _. Qed.

(** On a dictionary, sorting the items by name has one possible result. *)
Lemma sorted_items_unique (a b : FactStore) :
  Dict.wf a → a ≡ₚ b → sorted_items a = sorted_items b.
Proof.
  intros Hwf Hab.
  apply (StronglySorted_unique_strong item_le);
    [|apply sorted_items_sorted..|by rewrite !sorted_items_Permutation].
  intros [n m] [n' m'] Hin Hin' Hle Hle'. unfold item_le in *. simpl in *.
  assert (n = n') as <- by by apply (anti_symm String.le).
  rewrite sorted_items_Permutation in Hin.
  rewrite sorted_items_Permutation, <- Hab in Hin'.
  apply (dict_elem_of_get _ _ _ Hwf) in Hin, Hin'. by simplify_eq.
Qed.

(** X12. [export_csv] writes the header and then one row of seven fields
    per module, the rows in ascending order of the module names, whatever
    the order in which the modules were added. *)
Theorem export_csv_rows (modules : FactStore) :
  ∃ items,
    Report.export_csv modules = Report.csv_header :: map Report.csv_row items
    ∧ items ≡ₚ modules
    ∧ StronglySorted String.le items.*1
    ∧ Forall (λ row, length row = 7) (Report.export_csv modules)
    ∧ length (Report.export_csv modules) = S (length modules).
Proof.
  exists (sorted_items modules). split_and!.
  - done.
  - apply sorted_items_Permutation.
  - pose proof (sorted_items_sorted modules) as Hs.
    induction Hs as [|p l Hs IH Hall]; simpl; constructor; [done|].
    apply Forall_fmap. eapply Forall_impl; [exact Hall|]. done.
  - unfold Report.export_csv. constructor; [done|].
    apply Forall_fmap, Forall_forall. by intros [n m] _.
  - unfold Report.export_csv. simpl.
    by rewrite length_map, sorted_items_Permutation.
Qed.

(** X13. The exported rows do not depend on the insertion order: two
    stores that hold the same records in different orders export the same
    rows. *)
Theorem export_csv_order_independent (a b : FactStore) :
  Dict.wf a → a ≡ₚ b → Report.export_csv a = Report.export_csv b.
Proof.
  intros Hwf Hab. unfold Report.export_csv.
  by rewrite (sorted_items_unique a b).
Qed.

Lemma export_csv_order_independent_witness :
  Report.export_csv Examples.flat_store
  = Report.export_csv (reverse Examples.flat_store).
Proof.
  apply (export_csv_order_independent Examples.flat_store
           (reverse Examples.flat_store)).
  - unfold Dict.wf. compute_done.
  - symmetry. apply reverse_Permutation.
Defined.

Section StatusReport.
Import Report.

Lemma foldl_count_module (c : counters) (l : FactStore) :
  completed (foldl count_module c l)
    = completed c + length (filter (λ p, status p.2 = COMPLETED) l)
  ∧ in_progress (foldl count_module c l)
    = in_progress c + length (filter (λ p, status p.2 = IN_PROGRESS) l)
  ∧ not_started (foldl count_module c l)
    = not_started c + length (filter (λ p, status p.2 = NOT_STARTED) l)
  ∧ blocked (foldl count_module c l)
    = blocked c + length (filter (λ p, status p.2 = BLOCKED) l).
Proof.
  revert c. induction l as [|[n m] l IH]; intros c; simpl.
  - lia.
  - destruct (IH (count_module c (n, m))) as (H1 & H2 & H3 & H4).
    rewrite H1, H2, H3, H4, !filter_cons. unfold count_module. simpl.
    destruct (status m); simpl; repeat case_decide; simplify_eq; simpl; lia.
Qed.

Lemma length_by_status (l : FactStore) :
  length (filter (λ p, status p.2 = COMPLETED) l)
  + length (filter (λ p, status p.2 = IN_PROGRESS) l)
  + length (filter (λ p, status p.2 = NOT_STARTED) l)
  + length (filter (λ p, status p.2 = BLOCKED) l)
  + length (filter (λ p, status p.2 = SKIPPED) l)
  = length l.
Proof.
  induction l as [|[n m] l IH]; [done|].
  rewrite !filter_cons. simpl.
  destruct (status m); repeat case_decide; simplify_eq; simpl; lia.
Qed.

(** The loop that pairs each name of the suggested order with the status
    of its module never fails on tracked names. *)
Lemma suggested_loop (modules : FactStore) (order : list string)
    (acc : list (MigrationStatus * string)) :
  (∀ n, n ∈ order → n ∈ Dict.keys modules) →
  ∃ suggested,
    for_each
      (λ name (acc : list (MigrationStatus * string)),
         module ←! MigrationTracker.getitem name (Dict.get name modules);
         Ok (acc ++ [(status module, name)]))
      order acc
    = Ok (acc ++ suggested)
    ∧ suggested.*2 = order
    ∧ Forall (λ p, ∃ m, Dict.get p.2 modules = Some m ∧ p.1 = status m) suggested.
Proof.
  revert acc. induction order as [|n order IH]; intros acc Hin.
  - exists []. simpl. by rewrite app_nil_r.
  - destruct (proj2 (dict_get_is_Some n modules)) as [m Hm]; [apply Hin; left|].
    destruct (IH (acc ++ [(status m, n)])) as (sug & Hl & Hnames & Hall).
    { intros x Hx. apply Hin. by right. }
    exists ((status m, n) :: sug). simpl. rewrite Hm. simpl.
    rewrite Hl, <- app_assoc. split_and!; [done | by f_equal/= |].
    constructor; [by exists m | done].
Qed.
End StatusReport.

(** X14. [print_status_report] on an empty store, and on no other,
    raises [ZeroDivisionError] (the percentages divide by the number of
    modules).  On a non-empty store with fewer modules than the interpreter
    still allows nested calls of [dfs] it prints: the total is the number
    of modules and the suggested order is [get_migration_order]'s, each
    name with the status of its module.  On a non-empty store an exception
    of [get_migration_order] ends the report. *)
Theorem print_status_report_result (depth : nat) (modules : FactStore) :
  Dict.wf modules →
  (Report.print_status_report depth modules = Report.ZeroDivisionError
   ↔ modules = [])
  ∧ (modules ≠ [] → length modules < depth →
     ∃ r order,
       Report.print_status_report depth modules = Report.Printed r
       ∧ Report.total r = length modules
       ∧ MigrationTracker.get_migration_order depth modules = Ok order
       ∧ (Report.suggested r).*2 = order
       ∧ Forall (λ p, ∃ m, Dict.get p.2 modules = Some m ∧ p.1 = status m)
           (Report.suggested r))
  ∧ (modules ≠ [] → ∀ e,
     MigrationTracker.get_migration_order depth modules = Raise e →
     Report.print_status_report depth modules = Report.OrderFailed e).
Proof.
  intros Hwf. split_and!.
  - split; [|by intros ->].
    intros Hz. destruct (decide (modules = [])) as [|Hne]; [done|].
    unfold Report.print_status_report in Hz.
    rewrite decide_False in Hz by by destruct modules.
    destruct (MigrationTracker.get_migration_order depth modules); [|done].
    by destruct (for_each _ _ _).
  - intros Hne Hdepth. unfold Report.print_status_report.
    rewrite decide_False by by destruct modules.
    destruct (get_migration_order_within_depth modules Hwf depth)
      as (order & Horder & _ & Hperm); [lia|].
    rewrite Horder.
    destruct (suggested_loop modules order []) as (sug & Hl & Hnames & Hall).
    { intros n Hn. by rewrite <- Hperm. }
    rewrite Hl. simpl. eexists _, order. by split_and!.
  - intros Hne e He. unfold Report.print_status_report.
    rewrite decide_False by by destruct modules.
    by rewrite He.
Qed.

Lemma print_status_report_result_witness :
  ∃ r order,
    Report.print_status_report 1000 Examples.default_store = Report.Printed r
    ∧ Report.total r = length Examples.default_store
    ∧ MigrationTracker.get_migration_order 1000 Examples.default_store
      = Ok order
    ∧ (Report.suggested r).*2 = order
    ∧ Forall (λ p, ∃ m, Dict.get p.2 Examples.default_store = Some m
                        ∧ p.1 = status m)
        (Report.suggested r).
Proof.
  apply (print_status_report_result 1000 Examples.default_store).
  - unfold Dict.wf. compute_done.
  - done.
  - simpl. lia.
Defined.

(** X15. The four counters of the report count the modules that are
    completed, in progress, not started and blocked; skipped modules are in
    none of them, so the counters add up to the total only when no module is
    skipped. *)
Theorem count_statuses_spec (modules : FactStore) :
  let c := Report.count_statuses modules in
  Report.completed c = length (filter (λ p, status p.2 = COMPLETED) modules)
  ∧ Report.in_progress c = length (filter (λ p, status p.2 = IN_PROGRESS) modules)
  ∧ Report.not_started c = length (filter (λ p, status p.2 = NOT_STARTED) modules)
  ∧ Report.blocked c = length (filter (λ p, status p.2 = BLOCKED) modules)
  ∧ Report.completed c + Report.in_progress c + Report.not_started c
    + Report.blocked c
    + length (filter (λ p, status p.2 = SKIPPED) modules)
    = length modules.
Proof.
  simpl. unfold Report.count_statuses.
  destruct (foldl_count_module (Report.mkCounters 0 0 0 0) (sorted_items modules))
    as (H1 & H2 & H3 & H4).
  rewrite H1, H2, H3, H4. simpl.
  rewrite !(sorted_items_Permutation modules).
  split_and!; try done. apply length_by_status.
Qed.

(** X16. The "Modules by status" part of the report: every module is
    listed in exactly one group, the group of its status; a status that no
    module has gets no group; within a group the names are in ascending
    order. *)
Theorem modules_by_status_groups (modules : FactStore) :
  (∀ n m, (n, m) ∈ modules →
     ∃ names, (status m, names) ∈ Report.modules_by_status modules ∧ n ∈ names)
  ∧ (∀ s names, (s, names) ∈ Report.modules_by_status modules →
       names ≠ []
       ∧ Sorted String.le names
       ∧ ∀ n, n ∈ names ↔ ∃ m, (n, m) ∈ modules ∧ status m = s)
  ∧ NoDup (Report.modules_by_status modules).*1.
Proof.
  assert (Hgroup : ∀ s names,
            (s, names) ∈ Report.modules_by_status modules ↔
            (filter (λ p, status p.2 = s) modules).*1 ≠ []
            ∧ names = sorted_names (filter (λ p, status p.2 = s) modules).*1).
  { intros s names. unfold Report.modules_by_status.
    rewrite list_elem_of_omap. split.
    - intros (s' & _ & Hs').
      destruct ((filter (λ p, status p.2 = s') modules).*1) eqn:E; [done|].
      simplify_eq. by rewrite E.
    - intros [Hne ->]. exists s. split.
      + unfold Report.all_statuses. destruct s; set_solver.
      + by destruct ((filter (λ p, status p.2 = s) modules).*1). }
  assert (Hmem : ∀ s n,
            n ∈ (filter (λ p, status p.2 = s) modules).*1 ↔
            ∃ m, (n, m) ∈ modules ∧ status m = s).
  { intros s n. rewrite list_elem_of_fmap. split.
    - intros ([n' m] & -> & [Hs Hin]%list_elem_of_filter). by exists m.
    - intros (m & Hin & Hs). exists (n, m). split; [done|].
      by apply list_elem_of_filter. }
  split_and!.
  - intros n m Hin. eexists. split.
    + apply Hgroup. split; [|reflexivity].
      intros Hnil. assert (Hn : n ∈ (filter (λ p, status p.2 = status m) modules).*1)
        by (apply Hmem; by exists m).
      rewrite Hnil in Hn. by apply elem_of_nil in Hn.
    + unfold sorted_names. rewrite merge_sort_Permutation. apply Hmem. by exists m.
  - intros s names [Hne ->]%Hgroup. split_and!.
    + intros Hnil. apply Hne. apply Permutation_nil_r.
      unfold sorted_names in Hnil. by rewrite <- Hnil, merge_sort_Permutation.
    + apply Sorted_merge_sort, _.
    + intros n. unfold sorted_names. by rewrite merge_sort_Permutation.
  - unfold Report.modules_by_status.
    assert (Hnd : NoDup Report.all_statuses) by compute_done.
    induction Hnd as [|s l Hs Hnd IH]; csimpl; [constructor|].
    destruct ((filter (λ p, status p.2 = s) modules).*1) as [|x names] eqn:E;
      csimpl; [done|].
    constructor; [|done].
    intros ([s' names'] & Heq & (s'' & Hin & Hsome)%list_elem_of_omap)%list_elem_of_fmap.
    simpl in Heq. subst s'.
    destruct ((filter (λ p, status p.2 = s'') modules).*1); [done|].
    by simplify_eq.
Qed.

(** ** The [update] command *)

(** X17. The [update] command of [main]: for a name the tracker does not
    hold, the data file is left as it is (nothing is written, not even the
    default modules of a first run); for a tracked name the file is
    rewritten, and the next run loads exactly the updated store. *)
Theorem main_update_effect (other_formats later_formats : string → option date)
    (today later : date)
    (file : option MigrationTracker.file_content) (store : FactStore)
    (n : string) (s : MigrationStatus) (nt : option string) :
  date_ok today = true →
  MigrationTracker.init other_formats today file = Ok store →
  (n ∉ Dict.keys store →
   Report.main_update other_formats today file n s nt = Ok file)
  ∧ (n ∈ Dict.keys store →
     ∃ written,
       Report.main_update other_formats today file n s nt = Ok (Some written)
       ∧ MigrationTracker.init later_formats later (Some written)
         = Ok (MigrationTracker.update_module_status today n s None nt store).2).
Proof.
  intros Ht Hinit. unfold Report.main_update. rewrite Hinit. simpl. split.
  - intros Hn. by rewrite update_module_status_absent by by apply dict_get_None.
  - intros [m Hm]%dict_get_is_Some.
    pose proof (init_store_ok other_formats today file store Ht Hinit) as Hok.
    pose proof (update_module_status_ok today n s None nt store Ht
                  ltac:(by intros x [=]) Hok) as [Hwf'Hok'].
    destruct (update_module_status_present today n s None nt store m Hm)
      as (m' & Hup & _).
    rewrite Hup in *. simpl in *. eexists. split; [reflexivity|].
    unfold MigrationTracker.init, MigrationTracker._load_data.
    rewrite save_data_wf by done. simpl.
    by rewrite (load_modules_saved later_formats _ []).
Qed.

Lemma main_update_effect_witness :
  (("Ghost" : string) ∉ Dict.keys Examples.default_store →
   Report.main_update Examples.strict_formats Examples.today None "Ghost"
     COMPLETED None = Ok None)
  ∧ (("Ghost" : string) ∈ Dict.keys Examples.default_store →
     ∃ written,
       Report.main_update Examples.strict_formats Examples.today None "Ghost"
         COMPLETED None
       = Ok (Some written)
       ∧ MigrationTracker.init Examples.basic_format_of_today (Date 2026 1 1)
           (Some written)
         = Ok (MigrationTracker.update_module_status Examples.today "Ghost"
                 COMPLETED None None Examples.default_store).2).
Proof.
  apply (main_update_effect Examples.strict_formats
           Examples.basic_format_of_today Examples.today (Date 2026 1 1) None
           Examples.default_store "Ghost" COMPLETED None); reflexivity.
Defined.

(** * Further properties of the dependency analyzer *)

(** ** Target labels *)

Section Strings.
Implicit Types (c : ascii) (s p : string).

Lemma app_empty_r s : s +:+ "" = s.
Proof. induction s as [|a s IH]; [done|]. unfold String.app in *. simpl. by rewrite IH. Qed.

Lemma split_nonempty c s : Str.split c s ≠ [].
Proof.
  destruct s as [|a s]; simpl; [done|].
  destruct (decide (a = c)); [done|]. by destruct (Str.split c s).
Qed.

Lemma first_piece_cons_sep c s : Str.first_piece c (String c s) = "".
Proof. unfold Str.first_piece. simpl. by rewrite decide_True. Qed.

Lemma first_piece_empty c : Str.first_piece c "" = "".
Proof. done. Qed.

Lemma split_app c p s :
  Str.contains c p = false →
  Str.split c (p +:+ s)
  = (p +:+ Str.first_piece c s) :: tail (Str.split c s).
Proof.
  unfold Str.first_piece, String.app. induction p as [|a p IH]; simpl; intros Hp.
  - pose proof (split_nonempty c s). by destruct (Str.split c s).
  - destruct (decide (a = c)) as [->|Hne]; [done|]. by rewrite IH.
Qed.

Lemma first_piece_app c p s :
  Str.contains c p = false → Str.first_piece c (p +:+ s) = p +:+ Str.first_piece c s.
Proof. intros Hp. unfold Str.first_piece at 1. by rewrite split_app. Qed.

Lemma first_piece_no_sep c s :
  Str.contains c s = false → Str.first_piece c s = s.
Proof.
  intros Hs. rewrite <- (app_empty_r s) at 1.
  by rewrite first_piece_app, first_piece_empty, app_empty_r.
Qed.

Lemma startswith_app p s : Str.startswith p (p +:+ s) = true.
Proof.
  unfold String.app. induction p as [|a p IH]; simpl; [done|].
  by rewrite decide_True.
Qed.

(** The pieces of a split do not contain the separator, and contain no
    character that the string does not contain. *)
Lemma split_pieces c s piece :
  piece ∈ Str.split c s →
  Str.contains c piece = false
  ∧ ∀ c', Str.contains c' piece = true → Str.contains c' s = true.
Proof.
  revert piece. induction s as [|a s IH]; simpl; intros piece Hin.
  - apply list_elem_of_singleton in Hin as ->. done.
  - destruct (decide (a = c)) as [->|Hne].
    + apply elem_of_cons in Hin as [->|Hin]; [done|].
      destruct (IH piece Hin) as [H1 H2]. split; [done|].
      intros c' Hc'. destruct (decide (c = c')); [done|]. by apply H2.
    + pose proof (split_nonempty c s).
      destruct (Str.split c s) as [|h t] eqn:E; [done|].
      apply elem_of_cons in Hin as [->|Hin].
      * destruct (IH h ltac:(left)) as [H1 H2]. simpl.
        rewrite decide_False by done. split; [done|].
        intros c'. destruct (decide (a = c')); [done|]. apply H2.
      * destruct (IH piece ltac:(by right)) as [H1 H2]. split; [done|].
        intros c' Hc'. destruct (decide (a = c')); [done|]. by apply H2.
Qed.
End Strings.

(** X18. [parse_target_name] on a label under [packages/]: with or without
    the leading [//], and whatever follows the package directory (nothing, a
    deeper path, a [:target] part), the result is the package directory. *)
Theorem parse_target_name_package (pkg rest : string) :
  Str.contains "/" pkg = false →
  Str.contains ":" pkg = false →
  rest = "" ∨ (∃ r, rest = String "/" r) ∨ (∃ r, rest = String ":" r) →
  Targets.parse_target_name ("//packages/" +:+ pkg +:+ rest) = Some pkg
  ∧ Targets.parse_target_name ("packages/" +:+ pkg +:+ rest) = Some pkg.
Proof.
  intros Hslash Hcolon Hrest.
  assert (Hcut : ∀ t, (if Str.contains ":" t
                       then default t (Str.split ":" t !! 0) else t)
                      = Str.first_piece ":" t).
  { intros t. destruct (Str.contains ":" t) eqn:E; [done|].
    by rewrite first_piece_no_sep. }
  assert (Hgo : ∀ t, t = "packages/" +:+ pkg +:+ rest →
     (let t' := if Str.contains ":" t
                then default t (Str.split ":" t !! 0) else t in
      if Str.startswith "packages/" t' then
        let parts := Str.split "/" t' in
        if bool_decide (1 < length parts) then parts !! 1 else None
      else None) = Some pkg).
  { intros t ->. cbv zeta. rewrite Hcut.
    rewrite (first_piece_app ":" "packages/") by done.
    rewrite (first_piece_app ":" pkg) by done.
    rewrite startswith_app.
    change ("packages/" +:+ pkg +:+ Str.first_piece ":" rest)
      with ("packages" +:+ "/" +:+ pkg +:+ Str.first_piece ":" rest).
    rewrite (split_app "/" "packages") by done.
    change ("/" +:+ pkg +:+ Str.first_piece ":" rest)
      with (String "/" (pkg +:+ Str.first_piece ":" rest)).
    cbn [Str.split]. rewrite decide_True by done. cbn [tail].
    rewrite (split_app "/" pkg) by done.
    assert (Hempty : Str.first_piece "/" (Str.first_piece ":" rest) = "").
    { destruct Hrest as [->|[[r ->]|[r ->]]].
      - done.
      - change (String "/" r) with ("/" +:+ r).
        rewrite (first_piece_app ":" "/" r) by done. apply first_piece_cons_sep.
      - by rewrite first_piece_cons_sep. }
    rewrite Hempty, !app_empty_r.
    by rewrite bool_decide_eq_true_2 by (simpl; lia). }
  split.
  - unfold Targets.parse_target_name.
    change ("//packages/" +:+ pkg +:+ rest)
      with (String "/" (String "/" ("packages/" +:+ pkg +:+ rest))).
    cbn [Str.startswith Str.drop]. rewrite !decide_True by done.
    by apply Hgo.
  - unfold Targets.parse_target_name.
    change (Str.startswith "//" ("packages/" +:+ pkg +:+ rest)) with false.
    by apply Hgo.
Qed.

Lemma parse_target_name_package_witness :
  Targets.parse_target_name ("//packages/" +:+ "UmbraCoreTypes" +:+ "/Sources:Core")
    = Some "UmbraCoreTypes"
  ∧ Targets.parse_target_name ("packages/" +:+ "UmbraCoreTypes" +:+ "/Sources:Core")
    = Some "UmbraCoreTypes".
Proof.
  apply (parse_target_name_package "UmbraCoreTypes" "/Sources:Core");
    [reflexivity | reflexivity |].
  right. left. by eexists.
Defined.

(** X19. A package name returned by [parse_target_name] holds neither a
    [/] nor a [:]: it is a single path segment, never a path or a label. *)
Theorem parse_target_name_segment (target pkg : string) :
  Targets.parse_target_name target = Some pkg →
  Str.contains "/" pkg = false ∧ Str.contains ":" pkg = false.
Proof.
  unfold Targets.parse_target_name.
  set (t1 := if Str.startswith "//" target then Str.drop 2 target else target).
  set (t2 := if Str.contains ":" t1 then default t1 (Str.split ":" t1 !! 0) else t1).
  assert (Ht2 : Str.contains ":" t2 = false).
  { subst t2. destruct (Str.contains ":" t1) eqn:E; [|done].
    pose proof (split_nonempty ":" t1).
    destruct (Str.split ":" t1) as [|h t] eqn:Es; [done|]. simpl.
    apply (split_pieces ":" t1 h). rewrite Es. left. }
  destruct (Str.startswith "packages/" t2); [|done].
  case_bool_decide; [|done]. intros Hpkg%list_elem_of_lookup_2.
  destruct (split_pieces "/" t2 pkg Hpkg) as [Hslash Hsub]. split; [done|].
  destruct (Str.contains ":" pkg) eqn:E; [|done].
  apply Hsub in E. congruence.
Qed.

Lemma parse_target_name_segment_witness :
  Str.contains "/" "Foo" = false ∧ Str.contains ":" "Foo" = false.
Proof.
  apply (parse_target_name_segment "//packages/Foo/Bar:baz:qux" "Foo").
  reflexivity.
Defined.

(** ** Collecting the package dependencies *)

Section Collect.
Import Targets.
Variable rules : gmap string (list string).
Variable query : string → option (list (option string)).
Implicit Types (pd : list (string * gset string)) (s t : string).

Lemma has_edge_add_edge pd s t s' t' :
  has_edge (add_edge s t pd) s' t' ↔ has_edge pd s' t' ∨ (s' = s ∧ t' = t).
Proof.
  unfold has_edge, add_edge. destruct (decide (s = s')) as [<-|Hne].
  - rewrite dict_get_set_eq. split.
    + intros (deps & [= <-] & Hin).
      apply elem_of_union in Hin as [->%elem_of_singleton|Hin]; [by right|].
      left. destruct (Dict.get s pd) as [old|]; [by exists old|].
      simpl in Hin. set_solver.
    + intros [(deps & Hget & Hin)|[_ ->]]; eexists; (split; [reflexivity|]).
      * rewrite Hget. set_solver.
      * set_solver.
  - rewrite dict_get_set_ne by done. split; [by left|].
    intros [?|[? _]]; [done | congruence].
Qed.

Lemma clean_add_edge pd s t :
  clean rules pd → s ≠ "" → t ≠ s → t ≠ "" → tracked_package rules t = true →
  clean rules (add_edge s t pd).
Proof.
  intros [Hwf Hall] Hs Hts Ht Htr. unfold add_edge. split.
  - by apply dict_set_wf.
  - apply Forall_dict_set; [done|]. simpl. split_and!; [done | set_solver |].
    intros t' [->%elem_of_singleton|Hin]%elem_of_union; [done|].
    destruct (Dict.get s pd) as [old|] eqn:Hget; [|set_solver].
    apply dict_get_elem_of in Hget.
    destruct (proj1 (Forall_forall _ _) Hall _ Hget) as (_ & _ & Hold).
    by apply Hold.
Qed.

(** The dependency [dep_name] of a target of [s] counts as an edge to [t]. *)
Let counts (s : string) (dep_name : option string) (t : string) : Prop :=
  ∃ dn, dep_name = Some dn ∧ dn ≠ "" ∧ parse_target_name dn = Some t
        ∧ t ≠ "" ∧ t ≠ s ∧ tracked_package rules t = true.

Lemma process_dep_spec pd s d :
  clean rules pd → s ≠ "" →
  clean rules (process_dep rules s pd d)
  ∧ ∀ s' t', has_edge (process_dep rules s pd d) s' t'
             ↔ has_edge pd s' t' ∨ (s' = s ∧ counts s d t').
Proof.
  intros Hclean Hs. unfold process_dep, counts.
  destruct d as [dn|]; [|split; [done|]; intros; split; [by left|];
                         by intros [?|(_ & ? & [=] & _)]].
  destruct (decide (dn = "")) as [->|Hdn].
  { split; [done|]. intros. split; [by left|].
    by intros [?|(_ & ? & [= <-] & ? & _)]. }
  destruct (parse_target_name dn) as [t|] eqn:Hparse.
  2:{ split; [done|]. intros. split; [by left|].
      intros [?|(_ & ? & [= <-] & _ & ? & _)]; [done | congruence]. }
  destruct (decide (t = "")) as [->|Ht].
  { rewrite bool_decide_eq_true_2 by done. simpl. split; [done|].
    intros. split; [by left|].
    intros [?|(_ & ? & [= <-] & _ & ? & ? & _)]; [done | congruence]. }
  rewrite (bool_decide_eq_false_2 (t = "")) by done. simpl.
  destruct (decide (t = s)) as [->|Hts].
  { rewrite bool_decide_eq_true_2 by done. split; [done|].
    intros. split; [by left|].
    intros [?|(_ & ? & [= <-] & _ & ? & _ & ? & _)]; [done | congruence]. }
  rewrite bool_decide_eq_false_2 by done.
  destruct (tracked_package rules t) eqn:Htr.
  - split; [by apply clean_add_edge|].
    intros s' t'. rewrite has_edge_add_edge. split.
    + intros [?|[-> ->]]; [by left|]. right. split; [done|]. by exists dn.
    + intros [?|(-> & ? & [= <-] & _ & ? & _)]; [by left|].
      right. split; [done | congruence].
  - split; [done|]. intros. split; [by left|].
    intros [?|(_ & ? & [= <-] & _ & ? & _ & _ & ?)]; [done | congruence].
Qed.

Lemma process_deps_spec pd s (deps : list (option string)) :
  clean rules pd → s ≠ "" →
  clean rules (foldl (process_dep rules s) pd deps)
  ∧ ∀ s' t', has_edge (foldl (process_dep rules s) pd deps) s' t'
             ↔ has_edge pd s' t' ∨ (s' = s ∧ ∃ d, d ∈ deps ∧ counts s d t').
Proof.
  intros Hclean Hs. revert pd Hclean.
  induction deps as [|d deps IH]; intros pd Hclean; simpl.
  - split; [done|]. intros. split; [by left|].
    intros [?|(_ & ? & ?%elem_of_nil & _)]; done.
  - destruct (process_dep_spec pd s d Hclean Hs) as [Hc1 He1].
    destruct (IH _ Hc1) as [Hc2 He2]. split; [done|].
    intros s' t'. rewrite He2, He1. split.
    + intros [[?|[-> ?]]|[-> (d' & ? & ?)]]; [by left|right..].
      * split; [done|]. exists d. split; [left | done].
      * split; [done|]. exists d'. split; [by right | done].
    + intros [?|[-> (d' & [->|?]%elem_of_cons & ?)]].
      * by left; left.
      * by left; right.
      * right. split; [done|]. by exists d'.
Qed.

(** The target [target_name] contributes an edge from [s] to [t]. *)
Let contributes (target_name : option string) (s t : string) : Prop :=
  ∃ tn deps, target_name = Some tn ∧ tn ≠ ""
    ∧ parse_target_name tn = Some s ∧ s ≠ ""
    ∧ query tn = Some deps ∧ ∃ d, d ∈ deps ∧ counts s d t.

Lemma process_target_spec pd (target_name : option string) :
  clean rules pd →
  clean rules (process_target rules query pd target_name)
  ∧ ∀ s t, has_edge (process_target rules query pd target_name) s t
           ↔ has_edge pd s t ∨ contributes target_name s t.
Proof.
  intros Hclean. unfold process_target, contributes.
  destruct target_name as [tn|].
  2:{ split; [done|]. intros. split; [by left|]. by intros [?|(? & ? & [=] & _)]. }
  destruct (decide (tn = "")) as [->|Htn].
  { split; [done|]. intros. split; [by left|].
    by intros [?|(? & ? & [= <-] & ? & _)]. }
  destruct (parse_target_name tn) as [src|] eqn:Hparse.
  2:{ split; [done|]. intros. split; [by left|].
      intros [?|(? & ? & [= <-] & _ & ? & _)]; [done | congruence]. }
  destruct (decide (src = "")) as [->|Hsrc].
  { split; [done|]. intros. split; [by left|].
    intros [?|(? & ? & [= <-] & _ & ? & ? & _)]; [done | congruence]. }
  destruct (query tn) as [deps|] eqn:Hq.
  2:{ split; [done|]. intros. split; [by left|].
      intros [?|(? & ? & [= <-] & _ & _ & _ & ? & _)]; [done | congruence]. }
  destruct (process_deps_spec pd src deps Hclean Hsrc) as [Hc He].
  split; [done|]. intros s t. rewrite He. split.
  - intros [?|[-> ?]]; [by left|]. right. by exists tn, deps.
  - intros [?|(tn' & deps' & [= <-] & _ & ? & _ & ? & ?)]; [by left|].
    right. split; [congruence|]. by simplify_eq.
Qed.

Lemma collect_spec (target_rules : list (option string)) pd :
  clean rules pd →
  clean rules (foldl (process_target rules query) pd target_rules)
  ∧ ∀ s t, has_edge (foldl (process_target rules query) pd target_rules) s t
           ↔ has_edge pd s t ∨ ∃ tn, tn ∈ target_rules ∧ contributes tn s t.
Proof.
  revert pd. induction target_rules as [|tn l IH]; intros pd Hclean; simpl.
  - split; [done|]. intros. split; [by left|].
    intros [?|(? & ?%elem_of_nil & _)]; done.
  - destruct (process_target_spec pd tn Hclean) as [Hc1 He1].
    destruct (IH _ Hc1) as [Hc2 He2]. split; [done|].
    intros s t. rewrite He2, He1. split.
    + intros [[?|?]|(tn' & ? & ?)]; [by left|right..].
      * exists tn. split; [left | done].
      * exists tn'. split; [by right | done].
    + intros [?|(tn' & [->|?]%elem_of_cons & ?)].
      * by left; left.
      * by left; right.
      * right. by exists tn'.
Qed.

Lemma collect_package_deps_edges (target_rules : list (option string)) :
  clean rules (collect_package_deps rules query target_rules)
  ∧ ∀ s t, has_edge (collect_package_deps rules query target_rules) s t
           ↔ reported query target_rules s t ∧ s ≠ t
             ∧ tracked_package rules t = true.
Proof.
  destruct (collect_spec target_rules []) as [Hc He]; [split; constructor|].
  split; [done|]. intros s t. unfold collect_package_deps. rewrite He.
  unfold reported, contributes, counts, has_edge. split.
  - intros [(? & [=] & _)|(? & Hin & tn & deps & -> & ? & ? & ? & ? & d & ? & dn
                          & -> & ? & ? & ? & ? & ?)].
    split_and!; [|done..]. by exists tn, deps, dn.
  - intros ((tn & deps & dn & ? & ? & ? & ? & ? & ? & ? & ? & ?) & ? & ?).
    right. exists (Some tn). split; [done|]. exists tn, deps. split_and!; try done.
    exists (Some dn). split; [done|]. exists dn. by split_and!.
Qed.
End Collect.

Lemma enumerate_edges (pd : list (string * gset string)) (s t : string) :
  Dict.wf pd →
  (s, t) ∈ DependencyAnalyzer.edges (Targets.enumerate pd) ↔ has_edge pd s t.
Proof.
  intros Hwf. rewrite elem_of_edges. unfold Targets.enumerate, has_edge. split.
  - intros (deps & Hin & Ht). rewrite list_elem_of_In in Hin.
    apply in_map_iff in Hin as ([s' set] & [= -> <-] & Hin).
    rewrite <- list_elem_of_In in Hin.
    exists set. split; [by apply dict_elem_of_get|]. by apply elem_of_elements.
  - intros (set & Hget%dict_get_elem_of & Ht). exists (elements set).
    split; [|by apply elem_of_elements].
    rewrite list_elem_of_In. apply in_map_iff. exists (s, set).
    split; [done|]. by rewrite <- list_elem_of_In.
Qed.

Lemma analyze_dependencies_true (rules : gmap string (list string))
    (package_deps : list (string * list string)) :
  DependencyAnalyzer.analyze_dependencies rules package_deps = true
  ↔ ∀ s t, (s, t) ∈ DependencyAnalyzer.edges package_deps →
           DependencyAnalyzer.is_dependency_valid rules s t = true.
Proof.
  unfold DependencyAnalyzer.analyze_dependencies.
  rewrite invalid_deps_filter. split.
  - intros Hnil s t Hin.
    destruct (DependencyAnalyzer.is_dependency_valid rules s t) eqn:E; [done|].
    assert (Hf : (s, t) ∈ filter
              (λ p, DependencyAnalyzer.is_dependency_valid rules p.1 p.2 = false)
              (DependencyAnalyzer.edges package_deps))
      by by apply list_elem_of_filter.
    destruct (filter _ _); [by apply elem_of_nil in Hf | done].
  - intros Hall.
    destruct (filter _ _) as [|[s t] l] eqn:E; [done|].
    assert (Hf : (s, t) ∈ filter
              (λ p, DependencyAnalyzer.is_dependency_valid rules p.1 p.2 = false)
              (DependencyAnalyzer.edges package_deps))
      by (rewrite E; left).
    apply list_elem_of_filter in Hf as [Hbad Hin]. simpl in Hbad.
    rewrite (Hall s t Hin) in Hbad. done.
Qed.

(** X20. The mapping that [analyze_dependencies] collects holds exactly
    the dependencies the build tool reported between two different packages
    whose target is a tracked package (a key of the rule set, or
    [UmbraCoreTypes]).  Its sources are distinct, no set is empty, and no
    package name in it is empty. *)
Theorem collect_package_deps_spec (rules : gmap string (list string))
    (query : string → option (list (option string)))
    (target_rules : list (option string)) :
  clean rules (Targets.collect_package_deps rules query target_rules)
  ∧ (∀ s t,
       has_edge (Targets.collect_package_deps rules query target_rules) s t
       ↔ reported query target_rules s t ∧ s ≠ t
         ∧ Targets.tracked_package rules t = true)
  ∧ DependencyAnalyzer.package_deps_wf
      (Targets.enumerate (Targets.collect_package_deps rules query target_rules)).
Proof.
  destruct (collect_package_deps_edges rules query target_rules) as [Hc He].
  split_and!; [done | done |].
  destruct Hc as [Hwf _]. split.
  - unfold Dict.wf, Dict.keys, Targets.enumerate in *.
    by rewrite (dict_keys_map elements).
  - unfold Targets.enumerate. apply Forall_forall. intros [s deps] Hin.
    rewrite list_elem_of_In in Hin.
    apply in_map_iff in Hin as ([s' set] & [= -> <-] & _). apply NoDup_elements.
Qed.

(** X21. The verdict of [analyze_dependencies]: there is none when the
    query for the targets gave nothing; otherwise it is [True] exactly when
    every reported dependency between different packages on a tracked
    package is allowed by the rules.  [main] exits with 0 only on [True]. *)
Theorem analyze_verdict (rules : gmap string (list string))
    (query : string → option (list (option string)))
    (all_targets : option (list (option string))) :
  (Targets.analyze rules query all_targets = None ↔ all_targets = None)
  ∧ (∀ target_rules, all_targets = Some target_rules →
       (Targets.analyze rules query all_targets = Some true
        ↔ ∀ s t, reported query target_rules s t → s ≠ t →
                 Targets.tracked_package rules t = true →
                 DependencyAnalyzer.is_dependency_valid rules s t = true))
  ∧ (Targets.exit_code (Targets.analyze rules query all_targets) = 0
     ↔ Targets.analyze rules query all_targets = Some true).
Proof.
  split_and!.
  - by destruct all_targets.
  - intros target_rules ->. unfold Targets.analyze.
    destruct (collect_package_deps_edges rules query target_rules) as [[Hwf _] He].
    split.
    + intros [= Htrue] s t Hrep Hne Htr.
      apply (proj1 (analyze_dependencies_true _ _) Htrue).
      apply enumerate_edges; [done|]. by apply He.
    + intros Hall. f_equal. apply analyze_dependencies_true.
      intros s t Hin%enumerate_edges; [|done].
      apply He in Hin as (? & ? & ?). by apply Hall.
  - by destruct (Targets.analyze rules query all_targets) as [[|]|].
Qed.

Lemma analyze_verdict_witness :
  Targets.analyze DependencyAnalyzer.valid_dependencies example_deps
    (Some example_targets) = Some true
  ↔ ∀ s t, reported example_deps example_targets s t → s ≠ t →
           Targets.tracked_package DependencyAnalyzer.valid_dependencies t = true →
           DependencyAnalyzer.is_dependency_valid
             DependencyAnalyzer.valid_dependencies s t = true.
Proof.
  apply (analyze_verdict DependencyAnalyzer.valid_dependencies example_deps
           (Some example_targets)).
  reflexivity.
Defined.

(** ** Status values and the order under updates *)

(** X22. The status strings: [MigrationStatus(value)] gives back the
    member whose [value] it is passed, the five values are pairwise
    different, and a string that is none of them raises [ValueError]. *)
Theorem status_value_round_trip (s : MigrationStatus) (v : string) :
  status_of_value (status_value s) = Ok s
  ∧ (status_of_value v = Ok s ↔ v = status_value s)
  ∧ (status_of_value v = Raise ValueError
     ↔ v ∉ status_value <$> Report.all_statuses).
Proof.
  split_and!.
  - by destruct s.
  - split; [|intros ->; by destruct s].
    unfold status_of_value. repeat case_decide; subst; by intros [= <-].
  - unfold status_of_value, Report.all_statuses. split.
    + repeat case_decide; try done. intros _ Hin. set_solver.
    + intros Hnot. repeat case_decide; subst; try done; exfalso; apply Hnot;
        set_solver.
Qed.

Lemma order_view_dict_set (modules : FactStore) (n : string) (m m' : ModuleInfo) :
  Dict.get n modules = Some m →
  dependencies m' = dependencies m →
  dependents m' = dependents m →
  order_view (Dict.set n m' modules) = order_view modules.
Proof.
  intros Hget Hdeps Hdts. unfold order_view.
  rewrite (dict_keys_set_present n m' modules)
    by (apply dict_get_is_Some; by exists m).
  generalize (Dict.keys modules). intros K.
  induction modules as [|[k v] l IH]; simpl in *; [done|].
  destruct (decide (n = k)) as [->|Hne]; simpl.
  - simplify_eq. by rewrite Hdeps, Hdts.
  - f_equal. by apply IH.
Qed.

(** X23. [update_module_status] never changes the suggested migration
    order: whatever the call, [get_migration_order] returns (or raises)
    afterwards what it returned (or raised) before, at every recursion
    depth the interpreter may have left. *)
Theorem update_module_status_keeps_order (depth : nat) (today : date)
    (n : string) (s : MigrationStatus) (d : option date) (nt : option string)
    (modules : FactStore) :
  MigrationTracker.get_migration_order depth
    (MigrationTracker.update_module_status today n s d nt modules).2
  = MigrationTracker.get_migration_order depth modules.
Proof.
  destruct (Dict.get n modules) as [m|] eqn:Hm.
  - destruct (update_module_status_present today n s d nt modules m Hm)
      as (m' & -> & _ & _ & Hdeps & Hdts & _).
    simpl. apply same_view_same_order. by apply (order_view_dict_set _ _ m).
  - by rewrite update_module_status_absent.
Qed.

(** ** Further concrete instances *)

Lemma add_module_lookup_witness :
  Dict.get "CoreDTOs"
    (MigrationTracker.add_module "Logging" NOT_STARTED ["UmbraErrors"] [] None None
       "" Examples.default_store)
  = Dict.get "CoreDTOs" Examples.default_store.
Proof.
  apply (add_module_lookup "Logging" NOT_STARTED ["UmbraErrors"] [] None None ""
           Examples.default_store).
  done.
Defined.

Lemma modules_by_status_groups_witness :
  ∃ names,
    (IN_PROGRESS, names) ∈ Report.modules_by_status Examples.default_store
    ∧ "CoreDTOs" ∈ names.
Proof.
  apply (proj1 (modules_by_status_groups Examples.default_store) "CoreDTOs"
           (mkModuleInfo "CoreDTOs" IN_PROGRESS ["UmbraErrors"]
              ["UserDefaults"; "SecurityInterfaces"] None []
              "Dependencies updated to use migrated UmbraErrors module.")).
  right. left.
Defined.

Lemma collect_package_deps_spec_witness :
  has_edge
    (Targets.collect_package_deps DependencyAnalyzer.valid_dependencies
       example_deps example_targets)
    "UmbraUtils" "UmbraInterfaces"
  ↔ reported example_deps example_targets "UmbraUtils" "UmbraInterfaces"
    ∧ "UmbraUtils" ≠ "UmbraInterfaces"
    ∧ Targets.tracked_package DependencyAnalyzer.valid_dependencies
        "UmbraInterfaces" = true.
Proof.
  apply (collect_package_deps_spec DependencyAnalyzer.valid_dependencies
           example_deps example_targets).
Defined.

Lemma status_value_round_trip_witness :
  status_of_value "Done" = Raise ValueError.
Proof.
  apply (status_value_round_trip NOT_STARTED "Done"). compute_done.
Defined.
